(** * LOCC experiment: correlation estimation, run driver and significance analysis

    A shallow embedding of [src/experiment.py] and [src/analysis.py].

    Conventions of the embedding.
    - Python [int] is [Z]; Python [str] is [string] (outcome strings are ASCII).
    - A Python [float] / [numpy.float64] is a [float64]: a real number, one of
      the two infinities, or NaN.  Finite arithmetic is the exact arithmetic
      of the reals (rounding and overflow are not modelled), zero is unsigned
      and read as [+0]; the treatment of infinities, NaN and division by zero
      follows IEEE 754 as numpy applies it (a warning, never an exception).
    - A [dict] that is only iterated is the list of its [items()], in
      iteration order.
    - Exceptions are the [Raises] outcome of the [outcome] monad.
    - Console output ([print]) is not part of the model. *)

From Stdlib Require Import ZArith List String Ascii Bool Reals Lra Lia Permutation.
Import ListNotations.

(** ** Python runtime *)

Module Py.

Inductive exn : Type :=
| IndexError
| ValueError
| ZeroDivisionError
| DeviceError (msg : string).

Inductive outcome (A : Type) : Type :=
| Returns (a : A)
| Raises (e : exn).

Arguments Returns {A} a.
Arguments Raises {A} e.

Definition bind {A B : Type} (m : outcome A) (k : A -> outcome B) : outcome B :=
  match m with
  | Returns a => k a
  | Raises e => Raises e
  end.

Declare Scope py_scope.
Delimit Scope py_scope with py.

Notation "x <- m ;; k" := (bind m (fun x => k))
  (at level 61, m at next level, right associativity) : py_scope.
Notation "' pat <- m ;; k" := (bind m (fun x => match x with pat => k end))
  (at level 61, pat pattern, m at next level, right associativity) : py_scope.

Open Scope py_scope.

(** [for x in xs: s = body(s, x)], stopping at the first exception. *)
Fixpoint for_each {A S : Type} (body : S -> A -> outcome S) (xs : list A) (s : S)
  : outcome S :=
  match xs with
  | [] => Returns s
  | x :: xs' => s' <- body s x ;; for_each body xs' s'
  end.

(** [s[i]] on a string: negative indices count from the end, anything
    outside [-len, len) raises IndexError. *)
Definition str_index (s : string) (i : Z) : outcome ascii :=
  let n := Z.of_nat (String.length s) in
  let j := if (i <? 0)%Z then (i + n)%Z else i in
  if ((j <? 0) || (n <=? j))%Z then Raises IndexError
  else match String.get (Z.to_nat j) s with
       | Some c => Returns c
       | None => Raises IndexError
       end.

(** [int(c)] on a one-character ASCII string: the digit's value, or
    ValueError. *)
Definition py_int (c : ascii) : outcome Z :=
  let n := Z.of_N (N_of_ascii c) in
  if ((48 <=? n) && (n <=? 57))%Z then Returns (n - 48)%Z else Raises ValueError.

(** *** Floating-point values *)

Inductive float64 : Type :=
| Finite (r : R)
| PosInf
| NegInf
| NaN.

Definition of_int (z : Z) : float64 := Finite (IZR z).

Definition Rltb (a b : R) : bool := if Rlt_dec a b then true else false.
Definition Reqb (a b : R) : bool := if Req_dec_T a b then true else false.

Definition fneg (x : float64) : float64 :=
  match x with
  | Finite r => Finite (- r)
  | PosInf => NegInf
  | NegInf => PosInf
  | NaN => NaN
  end.

Definition fabs (x : float64) : float64 :=
  match x with
  | Finite r => Finite (Rabs r)
  | PosInf | NegInf => PosInf
  | NaN => NaN
  end.

Definition fadd (x y : float64) : float64 :=
  match x, y with
  | NaN, _ | _, NaN => NaN
  | Finite a, Finite b => Finite (a + b)
  | PosInf, NegInf | NegInf, PosInf => NaN
  | PosInf, _ | _, PosInf => PosInf
  | NegInf, _ | _, NegInf => NegInf
  end.

Definition fsub (x y : float64) : float64 := fadd x (fneg y).

(** The infinity carrying the sign of [r], NaN when [r] is zero. *)
Definition inf_of_sign (r : R) : float64 :=
  if Rltb 0 r then PosInf else if Rltb r 0 then NegInf else NaN.

Definition fmul (x y : float64) : float64 :=
  match x, y with
  | NaN, _ | _, NaN => NaN
  | Finite a, Finite b => Finite (a * b)
  | Finite a, PosInf | PosInf, Finite a => inf_of_sign a
  | Finite a, NegInf | NegInf, Finite a => inf_of_sign (- a)
  | PosInf, PosInf | NegInf, NegInf => PosInf
  | PosInf, NegInf | NegInf, PosInf => NegInf
  end.

(** numpy's true division: a zero divisor gives an infinity ([0/0] gives
    NaN) and no exception. *)
Definition fdiv (x y : float64) : float64 :=
  match x, y with
  | NaN, _ | _, NaN => NaN
  | Finite a, Finite b => if Reqb b 0 then inf_of_sign a else Finite (a / b)
  | Finite _, (PosInf | NegInf) => Finite 0
  | PosInf, Finite b => if Rltb b 0 then NegInf else PosInf
  | NegInf, Finite b => if Rltb b 0 then PosInf else NegInf
  | (PosInf | NegInf), (PosInf | NegInf) => NaN
  end.

(** [x ** 2]. *)
Definition fsquare (x : float64) : float64 := fmul x x.

(** [np.sqrt]. *)
Definition fsqrt (x : float64) : float64 :=
  match x with
  | Finite r => if Rltb r 0 then NaN else Finite (sqrt r)
  | PosInf => PosInf
  | NegInf | NaN => NaN
  end.

(** [x < y]; every comparison with NaN is false. *)
Definition fltb (x y : float64) : bool :=
  match x, y with
  | NaN, _ | _, NaN => false
  | Finite a, Finite b => Rltb a b
  | NegInf, (Finite _ | PosInf) => true
  | Finite _, PosInf => true
  | _, _ => false
  end.

(** [x == y]. *)
Definition feqb (x y : float64) : bool :=
  match x, y with
  | Finite a, Finite b => Reqb a b
  | PosInf, PosInf | NegInf, NegInf => true
  | _, _ => false
  end.

(** [a / b] on two Python ints. *)
Definition int_truediv (a b : Z) : outcome float64 :=
  if (b =? 0)%Z then Raises ZeroDivisionError
  else Returns (Finite (IZR a / IZR b)).

(** [seq[i]] on a list with a non-negative index. *)
Definition list_index {A : Type} (l : list A) (i : nat) : outcome A :=
  match nth_error l i with
  | Some a => Returns a
  | None => Raises IndexError
  end.

End Py.

(** ** experiment.py *)

Module Experiment.
Import Py.
Open Scope py_scope.

Definition ALICE_QUBIT : Z := 0.
Definition BOB_QUBIT : Z := 1.
Definition MARKER_QUBIT : Z := 2.

Definition THETA_VALUES : list Z := [0; 30; 60; 90; 120; 150; 180]%Z.

Definition N_SHOTS : Z := 2000.

Definition DEVICE_ARN : string :=
  "arn:aws:braket:us-west-1::device/qpu/rigetti/Ankaa-3".

(** *** Circuits: the instructions appended so far, oldest first *)

Inductive instruction : Type :=
| h (qubit : Z)
| cnot (control target : Z)
| ry (target : Z) (angle : float64)
| measure (qubit : Z).

Definition Circuit : Type := list instruction.

Definition create_bell_state (circuit : Circuit) (alice bob : Z) : Circuit :=
  circuit ++ [h alice] ++ [cnot alice bob].

Definition controlled_rotation_cnot (circuit : Circuit) (control target : Z)
    (theta : float64) : Circuit :=
  circuit
    ++ [ry target (fdiv theta (of_int 2))]
    ++ [cnot control target]
    ++ [ry target (fdiv (fneg theta) (of_int 2))]
    ++ [cnot control target]
    ++ [ry target (fdiv theta (of_int 2))].

Definition circuit_standard_bell (alice bob : Z) : Circuit :=
  let circuit := [] in
  create_bell_state circuit alice bob.

Definition circuit_no_reversal (alice bob marker : Z) (theta : float64) : Circuit :=
  let circuit := [] in
  let circuit := create_bell_state circuit alice bob in
  controlled_rotation_cnot circuit alice marker theta.

Definition circuit_with_reversal (alice bob marker : Z) (theta : float64) : Circuit :=
  let circuit := [] in
  let circuit := create_bell_state circuit alice bob in
  let circuit := controlled_rotation_cnot circuit alice marker theta in
  controlled_rotation_cnot circuit alice marker (fneg theta).

Definition add_measurements (circuit : Circuit) (qubits : list Z) : Circuit :=
  fold_left (fun c qubit => c ++ [measure qubit]) qubits circuit.

(** *** Data analysis *)

(** Measurement counts, as [counts.items()]. *)
Definition Counts : Type := list (string * Z).

(** One iteration of the loop of [compute_correlation] on the pair
    [(same, different)]. *)
Definition correlation_step (alice_idx bob_idx : Z) (acc : Z * Z)
    (item : string * Z) : outcome (Z * Z) :=
  let '(same, different) := acc in
  let '(bitstring, count) := item in
  a <- str_index bitstring alice_idx ;;
  alice_bit <- py_int a ;;
  b <- str_index bitstring bob_idx ;;
  bob_bit <- py_int b ;;
  if (alice_bit =? bob_bit)%Z
  then Returns ((same + count)%Z, different)
  else Returns (same, (different + count)%Z).

Definition compute_correlation (counts : Counts) (alice_idx bob_idx n_shots : Z)
  : outcome (float64 * float64) :=
  '(same, different) <- for_each (correlation_step alice_idx bob_idx) counts (0%Z, 0%Z) ;;
  C <- int_truediv (same - different) n_shots ;;
  let error := fdiv (of_int 1) (fsqrt (of_int n_shots)) in
  Returns (C, error).

(** One iteration of the loop of [verify_marker_erasure] on the pair
    [(marker_zero, total)]. *)
Definition marker_step (marker_idx : Z) (acc : Z * Z) (item : string * Z)
  : outcome (Z * Z) :=
  let '(marker_zero, total) := acc in
  let '(bitstring, count) := item in
  m <- str_index bitstring marker_idx ;;
  marker_bit <- py_int m ;;
  let total := (total + count)%Z in
  if (marker_bit =? 0)%Z
  then Returns ((marker_zero + count)%Z, total)
  else Returns (marker_zero, total).

Definition verify_marker_erasure (counts : Counts) (marker_idx : Z)
  : outcome float64 :=
  '(marker_zero, total) <- for_each (marker_step marker_idx) counts (0%Z, 0%Z) ;;
  if (0 <? total)%Z then int_truediv marker_zero total else Returns (of_int 0).

(** *** Results record *)

Module Metadata.
Record t : Type := Build {
  device : string;
  timestamp : string;
  theta_values : list Z;
  n_shots : Z
}.
End Metadata.

Module Data.
Record t : Type := Build {
  theta : list Z;
  C_standard : list float64;
  C_standard_err : list float64;
  C_no_reversal : list float64;
  C_no_reversal_err : list float64;
  C_with_reversal : list float64;
  C_with_reversal_err : list float64
}.
End Data.

(** One entry of [raw_counts_theta['circuits']]; [marker_P0] is present for
    the condition with reversal only. *)
Module Entry.
Record t : Type := Build {
  counts : Counts;
  C : float64;
  C_err : float64;
  marker_P0 : option float64
}.
End Entry.

Module RawCounts.
Record t : Type := Build {
  theta : Z;
  standard : Entry.t;
  no_reversal : Entry.t;
  with_reversal : Entry.t
}.
End RawCounts.

Module Results.
Record t : Type := Build {
  metadata : Metadata.t;
  data : Data.t;
  raw_counts : list RawCounts.t
}.
End Results.

(** [np.deg2rad]. *)
Definition deg2rad (deg : Z) : float64 := Finite (IZR deg * (PI / 180)).

(** *** Experiment execution *)

Section Driver.

(** The device abstraction of the vendor SDK.  A [Device] value is a device
    handle together with whatever state of the remote service decides its
    next answers; [device_run device circuit shots] stands for
    [device.run(circuit, shots=shots).result().measurement_counts] and
    either raises or yields the counts and the device afterwards. *)
Variable Device : Type.
Variable AwsDevice : string -> Device.
Variable Devices_Amazon_SV1 : string.
Variable device_run : Device -> Circuit -> Z -> outcome (Counts * Device).

(** [datetime.now().isoformat()]. *)
Variable now_isoformat : string.

(** The body of [for theta_deg in THETA_VALUES], on the results record and
    the device.  The statistical test at the end of the body feeds [print]
    only and is built from [float64] operations, which do not raise. *)
Definition run_angle (state : Results.t * Device) (theta_deg : Z)
  : outcome (Results.t * Device) :=
  let '(results, device) := state in
  let theta_rad := deg2rad theta_deg in
  (* Condition 1: Standard Bell *)
  let circuit := circuit_standard_bell ALICE_QUBIT BOB_QUBIT in
  let circuit := add_measurements circuit [ALICE_QUBIT; BOB_QUBIT] in
  '(counts, device) <- device_run device circuit N_SHOTS ;;
  '(C_std, C_std_err) <- compute_correlation counts ALICE_QUBIT BOB_QUBIT N_SHOTS ;;
  let standard := Entry.Build counts C_std C_std_err None in
  (* Condition 2: No reversal *)
  let circuit := circuit_no_reversal ALICE_QUBIT BOB_QUBIT MARKER_QUBIT theta_rad in
  let circuit := add_measurements circuit [ALICE_QUBIT; BOB_QUBIT; MARKER_QUBIT] in
  '(counts, device) <- device_run device circuit N_SHOTS ;;
  '(C_no_rev, C_no_rev_err) <- compute_correlation counts ALICE_QUBIT BOB_QUBIT N_SHOTS ;;
  let no_reversal := Entry.Build counts C_no_rev C_no_rev_err None in
  (* Condition 3: With reversal *)
  let circuit := circuit_with_reversal ALICE_QUBIT BOB_QUBIT MARKER_QUBIT theta_rad in
  let circuit := add_measurements circuit [ALICE_QUBIT; BOB_QUBIT; MARKER_QUBIT] in
  '(counts, device) <- device_run device circuit N_SHOTS ;;
  '(C_rev, C_rev_err) <- compute_correlation counts ALICE_QUBIT BOB_QUBIT N_SHOTS ;;
  marker_erased <- verify_marker_erasure counts MARKER_QUBIT ;;
  let with_reversal := Entry.Build counts C_rev C_rev_err (Some marker_erased) in
  let raw_counts_theta := RawCounts.Build theta_deg standard no_reversal with_reversal in
  (* Store results *)
  let d := Results.data results in
  let d := Data.Build
    (Data.theta d ++ [theta_deg])
    (Data.C_standard d ++ [C_std])
    (Data.C_standard_err d ++ [C_std_err])
    (Data.C_no_reversal d ++ [C_no_rev])
    (Data.C_no_reversal_err d ++ [C_no_rev_err])
    (Data.C_with_reversal d ++ [C_rev])
    (Data.C_with_reversal_err d ++ [C_rev_err]) in
  Returns (Results.Build (Results.metadata results) d
             (Results.raw_counts results ++ [raw_counts_theta]),
           device).

(** The results record before the first angle. *)
Definition initial_results : Results.t :=
  Results.Build
    (Metadata.Build DEVICE_ARN now_isoformat THETA_VALUES N_SHOTS)
    (Data.Build [] [] [] [] [] [] [])
    [].

Definition select_device (use_simulator : bool) : Device :=
  if use_simulator then AwsDevice Devices_Amazon_SV1 else AwsDevice DEVICE_ARN.

(** The loop of [run_experiment] over a list of angles. *)
Definition run_angles (angles : list Z) (state : Results.t * Device)
  : outcome (Results.t * Device) :=
  for_each run_angle angles state.

Definition run_experiment (use_simulator : bool) : outcome Results.t :=
  let device := select_device use_simulator in
  let results := initial_results in
  '(results, _) <- run_angles THETA_VALUES (results, device) ;;
  Returns results.

End Driver.

Arguments run_angle {Device} device_run state theta_deg.
Arguments select_device {Device} AwsDevice Devices_Amazon_SV1 use_simulator.
Arguments run_angles {Device} device_run angles state.
Arguments run_experiment {Device} AwsDevice Devices_Amazon_SV1 device_run
  now_isoformat use_simulator.

End Experiment.

(** ** analysis.py *)

Module Analysis.
Import Py.
Open Scope py_scope.

(** The object under the key [data] of a loaded results file: seven lists
    of JSON numbers.  A JSON integer is the [float64] of the same value. *)
Module DataDict.
Record t : Type := Build {
  theta : list float64;
  C_standard : list float64;
  C_standard_err : list float64;
  C_no_reversal : list float64;
  C_no_reversal_err : list float64;
  C_with_reversal : list float64;
  C_with_reversal_err : list float64
}.
End DataDict.

(** A loaded results file; the analysis reads the key [data] only. *)
Module Document.
Record t : Type := Build { data : DataDict.t }.
End Document.

(** [save_results] followed by [load_data]: the JSON round trip keeps every
    number. *)
Definition reload (results : Experiment.Results.t) : Document.t :=
  let d := Experiment.Results.data results in
  Document.Build (DataDict.Build
    (map of_int (Experiment.Data.theta d))
    (Experiment.Data.C_standard d)
    (Experiment.Data.C_standard_err d)
    (Experiment.Data.C_no_reversal d)
    (Experiment.Data.C_no_reversal_err d)
    (Experiment.Data.C_with_reversal d)
    (Experiment.Data.C_with_reversal_err d)).

(** [np.array] of each list: the arrays hold the same numbers. *)
Definition extract_arrays (data : Document.t) : DataDict.t :=
  let d := Document.data data in
  DataDict.Build
    (DataDict.theta d)
    (DataDict.C_standard d)
    (DataDict.C_standard_err d)
    (DataDict.C_no_reversal d)
    (DataDict.C_no_reversal_err d)
    (DataDict.C_with_reversal d)
    (DataDict.C_with_reversal_err d).

(** [np.where(mask)[0]]: the indices at which the mask is true, counted
    from [i]. *)
Fixpoint np_where (mask : list bool) (i : nat) : list nat :=
  match mask with
  | [] => []
  | b :: mask' => if b then i :: np_where mask' (S i) else np_where mask' (S i)
  end.

(** [np.where(theta == 90)[0][0]]. *)
Definition find_idx_90 (theta : list float64) : outcome nat :=
  list_index (np_where (map (fun t => feqb t (of_int 90)) theta) 0) 0.

Module Restoration.
Record t : Type := Build {
  theta : Z;
  C_standard : float64;
  C_with_reversal : float64;
  gap : float64;
  significance_sigma : float64;
  t_statistic : float64;
  p_value : float64
}.
End Restoration.

Module Comparison.
Record t : Type := Build {
  C_no_reversal : float64;
  C_with_reversal : float64;
  difference : float64;
  significance_sigma : float64;
  statistically_same : bool
}.
End Comparison.

Section Statistics.

(** [scipy.stats.norm.cdf]. *)
Variable norm_cdf : float64 -> float64.

Definition analyze_restoration_failure (data : Document.t)
  : outcome Restoration.t :=
  let arrays := extract_arrays data in
  idx_90 <- find_idx_90 (DataDict.theta arrays) ;;
  C_std <- list_index (DataDict.C_standard arrays) idx_90 ;;
  C_rev <- list_index (DataDict.C_with_reversal arrays) idx_90 ;;
  err_std <- list_index (DataDict.C_standard_err arrays) idx_90 ;;
  err_rev <- list_index (DataDict.C_with_reversal_err arrays) idx_90 ;;
  let gap := fabs (fsub C_std C_rev) in
  let combined_err := fsqrt (fadd (fsquare err_std) (fsquare err_rev)) in
  let significance := fdiv gap combined_err in
  let t_stat := fdiv gap combined_err in
  let p_value := fmul (of_int 2) (fsub (of_int 1) (norm_cdf (fabs t_stat))) in
  Returns (Restoration.Build 90 C_std C_rev gap significance t_stat p_value).

End Statistics.

Definition test_erasure_vs_no_erasure (data : Document.t)
  : outcome Comparison.t :=
  let arrays := extract_arrays data in
  idx_90 <- find_idx_90 (DataDict.theta arrays) ;;
  C_no_rev <- list_index (DataDict.C_no_reversal arrays) idx_90 ;;
  C_with_rev <- list_index (DataDict.C_with_reversal arrays) idx_90 ;;
  err_no <- list_index (DataDict.C_no_reversal_err arrays) idx_90 ;;
  err_with <- list_index (DataDict.C_with_reversal_err arrays) idx_90 ;;
  let diff := fabs (fsub C_with_rev C_no_rev) in
  let combined_err := fsqrt (fadd (fsquare err_no) (fsquare err_with)) in
  let significance := fdiv diff combined_err in
  Returns (Comparison.Build C_no_rev C_with_rev diff significance
             (fltb significance (of_int 2))).

End Analysis.

(** ** Vocabulary of the specification *)

Module Spec.
Import Py Experiment.

(** A string of the characters 0 and 1. *)
Fixpoint is_bitstring (s : string) : bool :=
  match s with
  | EmptyString => true
  | String c s' => (Ascii.eqb c "0" || Ascii.eqb c "1") && is_bitstring s'
  end.

(** Measurement counts over [width] positions: every outcome is a bitstring
    of that width and every count is an occurrence count. *)
Definition measurement_counts (width : nat) (counts : Counts) : Prop :=
  Forall (fun item : string * Z =>
            String.length (fst item) = width
            /\ is_bitstring (fst item) = true
            /\ (0 <= snd item)%Z) counts.

(** A designated position of an outcome of [width] bits. *)
Definition position (width : nat) (i : Z) : Prop := (0 <= i < Z.of_nat width)%Z.

(** The bits of an outcome at positions [i] and [j] are equal. *)
Definition bits_agree (i j : Z) (s : string) : bool :=
  match String.get (Z.to_nat i) s, String.get (Z.to_nat j) s with
  | Some a, Some b => Ascii.eqb a b
  | _, _ => false
  end.

(** The bit of an outcome at position [i] is 0. *)
Definition reads_zero (i : Z) (s : string) : bool :=
  match String.get (Z.to_nat i) s with
  | Some c => Ascii.eqb c "0"
  | None => false
  end.

(** The sum of the counts of the outcomes that satisfy [p]. *)
Fixpoint weight_where (p : string -> bool) (counts : Counts) : Z :=
  match counts with
  | [] => 0
  | (s, c) :: rest => ((if p s then c else 0) + weight_where p rest)%Z
  end.

Definition same_weight (i j : Z) : Counts -> Z := weight_where (bits_agree i j).
Definition different_weight (i j : Z) : Counts -> Z :=
  weight_where (fun s => negb (bits_agree i j s)).
Definition zero_weight (i : Z) : Counts -> Z := weight_where (reads_zero i).
Definition total_count : Counts -> Z := weight_where (fun _ => true).

(** The five-gate decomposition of a controlled rotation of strength
    [theta]: RY(theta/2), CNOT, RY(-theta/2), CNOT, RY(theta/2). *)
Definition decomposition (control target : Z) (theta : float64) : list instruction :=
  [ ry target (fdiv theta (of_int 2));
    cnot control target;
    ry target (fdiv (fneg theta) (of_int 2));
    cnot control target;
    ry target (fdiv theta (of_int 2)) ].

(** All seven data sequences and [raw_counts] have length [n]. *)
Definition aligned (n : nat) (results : Results.t) : Prop :=
  let d := Results.data results in
  List.length (Data.theta d) = n
  /\ List.length (Data.C_standard d) = n
  /\ List.length (Data.C_standard_err d) = n
  /\ List.length (Data.C_no_reversal d) = n
  /\ List.length (Data.C_no_reversal_err d) = n
  /\ List.length (Data.C_with_reversal d) = n
  /\ List.length (Data.C_with_reversal_err d) = n
  /\ List.length (Results.raw_counts results) = n.

(** The number of measured qubits of a circuit: the width of its outcomes. *)
Definition measured_width (circuit : Circuit) : nat :=
  List.length (filter (fun i => match i with measure _ => true | _ => false end) circuit).

(** A device that answers every submission with measurement counts over
    the measured qubits, one count per requested shot. *)
Definition answers_every_submission {Device : Type}
    (device_run : Device -> Circuit -> Z -> outcome (Counts * Device)) : Prop :=
  forall device circuit shots,
    (0 <= shots)%Z ->
    exists counts device',
      device_run device circuit shots = Returns (counts, device')
      /\ measurement_counts (measured_width circuit) counts
      /\ total_count counts = shots.

(** A device that reads 0 on every qubit in every shot. *)
Definition all_zero_run (device : unit) (circuit : Circuit) (shots : Z)
  : outcome (Counts * unit) :=
  Returns ([(String.concat "" (repeat "0"%string (measured_width circuit)), shots)], tt).

(** The combined error of the gap test. *)
Definition combined_error (e1 e2 : float64) : float64 :=
  fsqrt (fadd (fsquare e1) (fsquare e2)).

(** An operation signals an undefined significance: it raises, or the
    significance it returns is NaN. *)
Definition signals_undefined {A : Type} (significance : A -> float64)
    (o : outcome A) : Prop :=
  match o with
  | Raises _ => True
  | Returns a => significance a = NaN
  end.

(** A float that is neither negative nor minus infinity. *)
Definition not_negative (x : float64) : Prop :=
  match x with
  | Finite r => (0 <= r)%R
  | PosInf | NaN => True
  | NegInf => False
  end.

(** A record with one angle, 90, and the given entries there. *)
Definition single_angle (C_std std_err C_no_rev no_rev_err C_rev rev_err : R)
  : Analysis.Document.t :=
  Analysis.Document.Build (Analysis.DataDict.Build
    [of_int 90] [Finite C_std] [Finite std_err] [Finite C_no_rev]
    [Finite no_rev_err] [Finite C_rev] [Finite rev_err]).

(** Correlations 1, 1/2 and 0 measured with zero error. *)
Definition zero_error_data : Analysis.Document.t := single_angle 1 0 (1 / 2) 0 0 0.

(** A difference of 10 with errors 3 and 4: significance exactly 2. *)
Definition two_sigma_data : Analysis.Document.t := single_angle 1 0 0 3 10 4.


(** The inverse of a gate of the coupling: a rotation by the opposite
    angle; H and CNOT are their own inverses. *)
Definition inverse_gate (i : instruction) : instruction :=
  match i with
  | ry target angle => ry target (fneg angle)
  | other => other
  end.

(** The qubits an instruction acts on. *)
Definition qubits_of (i : instruction) : list Z :=
  match i with
  | h qubit => [qubit]
  | cnot control target => [control; target]
  | ry target _ => [target]
  | measure qubit => [qubit]
  end.

(** A float that is a number lying between [lo] and [hi]. *)
Definition in_range (lo hi : R) (x : float64) : Prop :=
  exists r, x = Finite r /\ (lo <= r <= hi)%R.

(** A float that is a number. *)
Definition is_finite (x : float64) : Prop := exists r, x = Finite r.

(** Every stored correlation satisfies [P] and every stored error [Q]. *)
Definition every_estimate (P Q : float64 -> Prop) (results : Results.t) : Prop :=
  let d := Results.data results in
  Forall P (Data.C_standard d)
  /\ Forall Q (Data.C_standard_err d)
  /\ Forall P (Data.C_no_reversal d)
  /\ Forall Q (Data.C_no_reversal_err d)
  /\ Forall P (Data.C_with_reversal d)
  /\ Forall Q (Data.C_with_reversal_err d).

(** [raw_counts] tells the same story as [data]: entry by entry the same
    angle, correlations and errors, and a marker probability for the
    condition with reversal only. *)
Definition raw_matches_data (results : Results.t) : Prop :=
  let d := Results.data results in
  let raw := Results.raw_counts results in
  map RawCounts.theta raw = Data.theta d
  /\ map (fun e => Entry.C (RawCounts.standard e)) raw = Data.C_standard d
  /\ map (fun e => Entry.C_err (RawCounts.standard e)) raw = Data.C_standard_err d
  /\ map (fun e => Entry.C (RawCounts.no_reversal e)) raw = Data.C_no_reversal d
  /\ map (fun e => Entry.C_err (RawCounts.no_reversal e)) raw = Data.C_no_reversal_err d
  /\ map (fun e => Entry.C (RawCounts.with_reversal e)) raw = Data.C_with_reversal d
  /\ map (fun e => Entry.C_err (RawCounts.with_reversal e)) raw
     = Data.C_with_reversal_err d
  /\ Forall (fun e => Entry.marker_P0 (RawCounts.standard e) = None
                      /\ Entry.marker_P0 (RawCounts.no_reversal e) = None
                      /\ Entry.marker_P0 (RawCounts.with_reversal e) <> None) raw.

(** Every stored marker probability lies in [0, 1]. *)
Definition marker_probabilities_valid (results : Results.t) : Prop :=
  Forall (fun e => exists p, Entry.marker_P0 (RawCounts.with_reversal e) = Some p
                             /\ in_range 0 1 p)
         (Results.raw_counts results).

(** The record with the roles of two conditions exchanged: standard with
    reversal, and no-reversal with reversal. *)
Definition swap_standard_reversal (data : Analysis.Document.t) : Analysis.Document.t :=
  let d := Analysis.Document.data data in
  Analysis.Document.Build (Analysis.DataDict.Build
    (Analysis.DataDict.theta d)
    (Analysis.DataDict.C_with_reversal d) (Analysis.DataDict.C_with_reversal_err d)
    (Analysis.DataDict.C_no_reversal d) (Analysis.DataDict.C_no_reversal_err d)
    (Analysis.DataDict.C_standard d) (Analysis.DataDict.C_standard_err d)).

Definition swap_no_reversal_reversal (data : Analysis.Document.t) : Analysis.Document.t :=
  let d := Analysis.Document.data data in
  Analysis.Document.Build (Analysis.DataDict.Build
    (Analysis.DataDict.theta d)
    (Analysis.DataDict.C_standard d) (Analysis.DataDict.C_standard_err d)
    (Analysis.DataDict.C_with_reversal d) (Analysis.DataDict.C_with_reversal_err d)
    (Analysis.DataDict.C_no_reversal d) (Analysis.DataDict.C_no_reversal_err d)).

(** A loaded record whose six value sequences are as long as [theta]. *)
Definition rectangular (data : Analysis.Document.t) : Prop :=
  let d := Analysis.Document.data data in
  let n := List.length (Analysis.DataDict.theta d) in
  List.length (Analysis.DataDict.C_standard d) = n
  /\ List.length (Analysis.DataDict.C_standard_err d) = n
  /\ List.length (Analysis.DataDict.C_no_reversal d) = n
  /\ List.length (Analysis.DataDict.C_no_reversal_err d) = n
  /\ List.length (Analysis.DataDict.C_with_reversal d) = n
  /\ List.length (Analysis.DataDict.C_with_reversal_err d) = n.

End Spec.

(** ** Properties of the correlation estimator and the marker verifier *)

Module EstimatorProofs.
Import Py Experiment Spec.
Open Scope py_scope.

(** The integer part of the estimators runs as the code does. *)

Example tally_of_bell_counts :
  for_each (correlation_step 0 1)
    [("00"%string, 1000%Z); ("11"%string, 1000%Z)] (0%Z, 0%Z)
  = Returns (2000%Z, 0%Z).
Proof. reflexivity. Qed.

Example tally_of_uniform_counts :
  for_each (correlation_step 0 1)
    [("01"%string, 500%Z); ("10"%string, 500%Z); ("00"%string, 500%Z); ("11"%string, 500%Z)]
    (0%Z, 0%Z)
  = Returns (1000%Z, 1000%Z).
Proof. reflexivity. Qed.

Example marker_tally :
  for_each (marker_step 2)
    [("000"%string, 3%Z); ("001"%string, 1%Z); ("110"%string, 4%Z)] (0%Z, 0%Z)
  = Returns (7%Z, 8%Z).
Proof. reflexivity. Qed.

Example index_from_the_end : str_index "011" (-1) = Returns "1"%char.
Proof. reflexivity. Qed.

Example outcome_too_short :
  compute_correlation [("0"%string, 5%Z)] 0 1 5 = Raises IndexError.
Proof. reflexivity. Qed.

Example outcome_not_binary :
  compute_correlation [("0x"%string, 5%Z)] 0 1 5 = Raises ValueError.
Proof. reflexivity. Qed.

Example no_shots_declared :
  compute_correlation [("00"%string, 5%Z)] 0 1 0 = Raises ZeroDivisionError.
Proof. reflexivity. Qed.

Example marker_outside_outcome :
  verify_marker_erasure [("00"%string, 5%Z)] 2 = Raises IndexError.
Proof. reflexivity. Qed.

Lemma get_in_range (s : string) :
  forall n, (n < String.length s)%nat -> exists c, String.get n s = Some c.
Proof.
  induction s as [|a s IH]; intros n Hn; simpl in *.
  - lia.
  - destruct n as [|n]; [now exists a|]. apply IH. lia.
Qed.

Lemma get_bit (s : string) :
  is_bitstring s = true ->
  forall n c, String.get n s = Some c -> c = "0"%char \/ c = "1"%char.
Proof.
  induction s as [|a s IH]; intros Hs n c Hget; simpl in *.
  - discriminate.
  - apply andb_true_iff in Hs as [Ha Hs].
    destruct n as [|n].
    + injection Hget as <-.
      apply orb_true_iff in Ha as [Ha|Ha]; apply Ascii.eqb_eq in Ha; auto.
    + eauto.
Qed.

Lemma str_index_position (s : string) (i : Z) :
  position (String.length s) i ->
  exists c, String.get (Z.to_nat i) s = Some c /\ str_index s i = Returns c.
Proof.
  intros [Hlo Hhi].
  destruct (get_in_range s (Z.to_nat i)) as [c Hc]; [lia|].
  exists c. split; [exact Hc|].
  unfold str_index.
  destruct (Z.ltb_spec i 0) as [?|_]; [lia|].
  destruct (Z.ltb_spec i 0) as [?|_]; [lia|].
  destruct (Z.leb_spec (Z.of_nat (String.length s)) i) as [?|_]; [lia|].
  simpl. now rewrite Hc.
Qed.

(** On a bitstring, reading a position and converting it with [int] gives
    0 or 1, and two such bits are equal as integers exactly when the
    characters are equal. *)
Lemma read_bit (s : string) (i : Z) :
  is_bitstring s = true -> position (String.length s) i ->
  exists c b, String.get (Z.to_nat i) s = Some c
              /\ str_index s i = Returns c
              /\ py_int c = Returns b
              /\ ((c = "0"%char /\ b = 0%Z) \/ (c = "1"%char /\ b = 1%Z)).
Proof.
  intros Hs Hi.
  destruct (str_index_position s i Hi) as (c & Hget & Hidx).
  destruct (get_bit s Hs _ c Hget) as [->| ->].
  - exists "0"%char, 0%Z. repeat split; auto.
  - exists "1"%char, 1%Z. repeat split; auto.
Qed.

Lemma correlation_step_bits (alice_idx bob_idx same different : Z) (s : string) (c : Z) :
  is_bitstring s = true ->
  position (String.length s) alice_idx -> position (String.length s) bob_idx ->
  correlation_step alice_idx bob_idx (same, different) (s, c)
  = Returns (if bits_agree alice_idx bob_idx s
             then ((same + c)%Z, different)
             else (same, (different + c)%Z)).
Proof.
  intros Hs Ha Hb.
  destruct (read_bit s alice_idx Hs Ha) as (ca & ba & Hga & Hia & Hpa & Hca).
  destruct (read_bit s bob_idx Hs Hb) as (cb & bb & Hgb & Hib & Hpb & Hcb).
  unfold correlation_step, bits_agree.
  rewrite Hia, Hga, Hgb. simpl. rewrite Hpa. simpl. rewrite Hib. simpl.
  rewrite Hpb. simpl.
  destruct Hca as [[-> ->]|[-> ->]], Hcb as [[-> ->]|[-> ->]]; reflexivity.
Qed.

(** The loop of [compute_correlation] accumulates the two weights. *)
Lemma correlation_loop (width : nat) (alice_idx bob_idx : Z) (counts : Counts) :
  measurement_counts width counts ->
  position width alice_idx -> position width bob_idx ->
  forall same different,
    for_each (correlation_step alice_idx bob_idx) counts (same, different)
    = Returns ((same + same_weight alice_idx bob_idx counts)%Z,
               (different + different_weight alice_idx bob_idx counts)%Z).
Proof.
  intros Hwf Ha Hb.
  induction Hwf as [|[s c] rest (Hlen & Hbits & _) _ IH]; intros same different.
  - simpl. now rewrite !Z.add_0_r.
  - simpl in Hlen, Hbits. subst width.
    cbn [for_each]. rewrite (correlation_step_bits _ _ _ _ _ c Hbits Ha Hb).
    unfold same_weight, different_weight in *. cbn [bind weight_where].
    destruct (bits_agree alice_idx bob_idx s); cbn [negb]; rewrite IH; f_equal; f_equal; lia.
Qed.

Lemma weight_where_nonneg (width : nat) (p : string -> bool) (counts : Counts) :
  measurement_counts width counts -> (0 <= weight_where p counts)%Z.
Proof.
  induction 1 as [|[s c] rest (_ & _ & Hc) _ IH]; simpl in *; [lia|].
  destruct (p s); lia.
Qed.

Lemma weight_where_split (p : string -> bool) (counts : Counts) :
  (weight_where p counts + weight_where (fun s => negb (p s)) counts
   = total_count counts)%Z.
Proof.
  unfold total_count.
  induction counts as [|[s c] rest IH]; simpl; [reflexivity|].
  destruct (p s); simpl; lia.
Qed.

Lemma weight_where_all (p : string -> bool) (counts : Counts) :
  Forall (fun item : string * Z => p (fst item) = true) counts ->
  weight_where p counts = total_count counts
  /\ weight_where (fun s => negb (p s)) counts = 0%Z.
Proof.
  unfold total_count.
  induction 1 as [|[s c] rest Hp _ [IH1 IH2]]; simpl in *; [auto|].
  rewrite Hp, IH1, IH2. simpl. split; lia.
Qed.

(** The value [compute_correlation] returns on well-formed counts, with no
    assumption on how [n_shots] relates to the counts. *)
Lemma compute_correlation_returns (width : nat) (counts : Counts)
    (alice_idx bob_idx n_shots : Z) :
  measurement_counts width counts ->
  position width alice_idx -> position width bob_idx ->
  (0 < n_shots)%Z ->
  compute_correlation counts alice_idx bob_idx n_shots
  = Returns (Finite (IZR (same_weight alice_idx bob_idx counts
                          - different_weight alice_idx bob_idx counts)
                     / IZR n_shots),
             Finite (1 / sqrt (IZR n_shots))).
Proof.
  intros Hwf Ha Hb Hn.
  unfold compute_correlation.
  rewrite (correlation_loop width _ _ _ Hwf Ha Hb). cbn [bind]. rewrite !Z.add_0_l.
  unfold int_truediv.
  destruct (Z.eqb_spec n_shots 0) as [?|_]; [lia|]. cbn [bind].
  assert (Hpos : (0 < IZR n_shots)%R) by (apply IZR_lt; lia).
  assert (Hsq : (0 < sqrt (IZR n_shots))%R) by (apply sqrt_lt_R0; exact Hpos).
  unfold fsqrt, fdiv, of_int, Rltb, Reqb.
  destruct (Rlt_dec (IZR n_shots) 0) as [?|_]; [lra|].
  destruct (Req_dec_T (sqrt (IZR n_shots)) 0) as [?|_]; [lra|].
  reflexivity.
Qed.

Lemma marker_step_bits (marker_idx marker_zero total : Z) (s : string) (c : Z) :
  is_bitstring s = true -> position (String.length s) marker_idx ->
  marker_step marker_idx (marker_zero, total) (s, c)
  = Returns ((if reads_zero marker_idx s then (marker_zero + c)%Z else marker_zero),
             (total + c)%Z).
Proof.
  intros Hs Hm.
  destruct (read_bit s marker_idx Hs Hm) as (cm & bm & Hg & Hi & Hp & Hc).
  unfold marker_step, reads_zero.
  rewrite Hi, Hg. simpl. rewrite Hp. simpl.
  destruct Hc as [[-> ->]|[-> ->]]; reflexivity.
Qed.

(** The loop of [verify_marker_erasure] accumulates the weight of the
    outcomes whose marker bit is 0 and the total count. *)
Lemma marker_loop (width : nat) (marker_idx : Z) (counts : Counts) :
  measurement_counts width counts -> position width marker_idx ->
  forall marker_zero total,
    for_each (marker_step marker_idx) counts (marker_zero, total)
    = Returns ((marker_zero + zero_weight marker_idx counts)%Z,
               (total + total_count counts)%Z).
Proof.
  intros Hwf Hm.
  induction Hwf as [|[s c] rest (Hlen & Hbits & _) _ IH]; intros marker_zero total.
  - simpl. now rewrite !Z.add_0_r.
  - simpl in Hlen, Hbits. subst width.
    cbn [for_each]. rewrite (marker_step_bits _ _ _ _ c Hbits Hm).
    unfold zero_weight, total_count in *. cbn [bind weight_where].
    rewrite IH. destruct (reads_zero marker_idx s); f_equal; f_equal; lia.
Qed.

(** The value [verify_marker_erasure] returns on well-formed counts. *)
Lemma verify_marker_erasure_returns (width : nat) (counts : Counts) (marker_idx : Z) :
  measurement_counts width counts -> position width marker_idx ->
  verify_marker_erasure counts marker_idx
  = Returns (if (0 <? total_count counts)%Z
             then Finite (IZR (zero_weight marker_idx counts) / IZR (total_count counts))
             else of_int 0).
Proof.
  intros Hwf Hm. unfold verify_marker_erasure.
  rewrite (marker_loop width _ _ Hwf Hm). cbn [bind]. rewrite !Z.add_0_l.
  destruct (Z.ltb_spec 0 (total_count counts)) as [Hpos|_]; [|reflexivity].
  unfold int_truediv.
  destruct (Z.eqb_spec (total_count counts) 0) as [?|_]; [lia|reflexivity].
Qed.

(** A difference of two non-negative parts over their sum is a correlation. *)
Lemma ratio_in_unit_ball (x y : R) :
  (0 <= x)%R -> (0 <= y)%R -> (0 < x + y)%R ->
  (-1 <= (x - y) / (x + y) <= 1)%R.
Proof.
  intros Hx Hy Hxy.
  assert (Ht : (0 < / (x + y))%R) by (apply Rinv_0_lt_compat; exact Hxy).
  assert (H1 : ((x + y) * / (x + y) = 1)%R) by (apply Rinv_r; lra).
  unfold Rdiv. split; nra.
Qed.

(** A non-negative part over a whole that contains it is a probability. *)
Lemma part_in_unit_interval (x t : R) :
  (0 <= x <= t)%R -> (0 < t)%R -> (0 <= x / t <= 1)%R.
Proof.
  intros [Hx Hxt] Ht.
  assert (Hi : (0 < / t)%R) by (apply Rinv_0_lt_compat; exact Ht).
  assert (H1 : (t * / t = 1)%R) by (apply Rinv_r; lra).
  unfold Rdiv. split; nra.
Qed.

Lemma sqrt_2000_bounds : (44.72 < sqrt 2000 < 44.73)%R.
Proof.
  split.
  - replace 44.72%R with (sqrt (44.72 * 44.72)) by (apply sqrt_square; lra).
    apply sqrt_lt_1_alt. lra.
  - replace 44.73%R with (sqrt (44.73 * 44.73)) by (apply sqrt_square; lra).
    apply sqrt_lt_1_alt. lra.
Qed.

(** C1: on measurement counts whose outcomes are wide enough for the two
    designated positions, with a positive declared shot count equal to the
    sum of the counts, [compute_correlation] returns
    C = (same - different) / total, where an outcome is "same" exactly when
    its two designated bits are equal, and C lies in [-1, 1]. *)
Theorem compute_correlation_same_minus_different :
  forall (width : nat) (counts : Counts) (alice_idx bob_idx n_shots : Z),
    measurement_counts width counts ->
    position width alice_idx -> position width bob_idx ->
    (0 < n_shots)%Z -> total_count counts = n_shots ->
    exists (C : R) (error : float64),
      compute_correlation counts alice_idx bob_idx n_shots = Returns (Finite C, error)
      /\ C = ((IZR (same_weight alice_idx bob_idx counts)
               - IZR (different_weight alice_idx bob_idx counts))
              / IZR (total_count counts))%R
      /\ (-1 <= C <= 1)%R.
Proof.
  intros width counts alice_idx bob_idx n_shots Hwf Ha Hb Hn Htotal.
  pose proof (weight_where_nonneg width (bits_agree alice_idx bob_idx) counts Hwf) as Hs.
  pose proof (weight_where_nonneg width
                (fun s => negb (bits_agree alice_idx bob_idx s)) counts Hwf) as Hd.
  pose proof (weight_where_split (bits_agree alice_idx bob_idx) counts) as Hsplit.
  fold (same_weight alice_idx bob_idx counts) in Hs, Hsplit.
  fold (different_weight alice_idx bob_idx counts) in Hd, Hsplit.
  eexists. eexists. split; [|split].
  - apply (compute_correlation_returns width); assumption.
  - rewrite Htotal, minus_IZR. reflexivity.
  - rewrite minus_IZR, <- Htotal, <- Hsplit, plus_IZR.
    apply ratio_in_unit_ball.
    + apply IZR_le. exact Hs.
    + apply IZR_le. exact Hd.
    + rewrite <- plus_IZR. apply IZR_lt. lia.
Qed.

Lemma compute_correlation_same_minus_different_witness :
  exists (C : R) (error : float64),
    compute_correlation [("00"%string, 3%Z); ("01"%string, 1%Z)] 0 1 4
    = Returns (Finite C, error)
    /\ C = ((IZR (same_weight 0 1 [("00"%string, 3%Z); ("01"%string, 1%Z)])
             - IZR (different_weight 0 1 [("00"%string, 3%Z); ("01"%string, 1%Z)]))
            / IZR (total_count [("00"%string, 3%Z); ("01"%string, 1%Z)]))%R
    /\ (-1 <= C <= 1)%R.
Proof.
  apply (compute_correlation_same_minus_different 2%nat).
  - repeat constructor; simpl; lia.
  - unfold position; simpl; lia.
  - unfold position; simpl; lia.
  - lia.
  - reflexivity.
Defined.

(** C5: when the two designated bits of every outcome are equal and the
    total equals the declared positive shot count, [compute_correlation]
    returns exactly C = +1 with error = 1/sqrt(total); for the counts
    00 -> 1000, 11 -> 1000 with 2000 declared shots and positions (0, 1) it
    returns C = +1 and an error within 0.00005 of 0.0224. *)
Theorem compute_correlation_perfectly_correlated :
  (forall (width : nat) (counts : Counts) (alice_idx bob_idx n_shots : Z),
      measurement_counts width counts ->
      position width alice_idx -> position width bob_idx ->
      Forall (fun item : string * Z =>
                bits_agree alice_idx bob_idx (fst item) = true) counts ->
      (0 < n_shots)%Z -> total_count counts = n_shots ->
      compute_correlation counts alice_idx bob_idx n_shots
      = Returns (Finite 1, Finite (1 / sqrt (IZR (total_count counts)))))
  /\ (exists error : R,
         compute_correlation [("00"%string, 1000%Z); ("11"%string, 1000%Z)] 0 1 2000
         = Returns (Finite 1, Finite error)
         /\ (Rabs (error - 0.0224) < 0.00005)%R).
Proof.
  assert (General :
    forall (width : nat) (counts : Counts) (alice_idx bob_idx n_shots : Z),
      measurement_counts width counts ->
      position width alice_idx -> position width bob_idx ->
      Forall (fun item : string * Z =>
                bits_agree alice_idx bob_idx (fst item) = true) counts ->
      (0 < n_shots)%Z -> total_count counts = n_shots ->
      compute_correlation counts alice_idx bob_idx n_shots
      = Returns (Finite 1, Finite (1 / sqrt (IZR (total_count counts))))).
  { intros width counts alice_idx bob_idx n_shots Hwf Ha Hb Hall Hn Htotal.
    destruct (weight_where_all (bits_agree alice_idx bob_idx) counts Hall) as [Hs Hd].
    rewrite (compute_correlation_returns width) by assumption.
    unfold same_weight, different_weight. rewrite Hs, Hd, Htotal, Z.sub_0_r.
    do 3 f_equal. field. apply Rgt_not_eq, Rlt_gt, IZR_lt. exact Hn. }
  split; [exact General|].
  exists (1 / sqrt 2000)%R. split.
  - apply (General 2%nat).
    + repeat constructor; simpl; lia.
    + unfold position; simpl; lia.
    + unfold position; simpl; lia.
    + repeat constructor.
    + lia.
    + reflexivity.
  - pose proof sqrt_2000_bounds as [Hlo Hhi].
    assert (Hi : (0 < / sqrt 2000)%R) by (apply Rinv_0_lt_compat; lra).
    assert (H1 : (sqrt 2000 * / sqrt 2000 = 1)%R) by (apply Rinv_r; lra).
    apply Rabs_def1; unfold Rdiv; nra.
Qed.

Lemma compute_correlation_perfectly_correlated_witness :
  compute_correlation [("000"%string, 5%Z); ("110"%string, 2%Z); ("111"%string, 1%Z)] 0 1 8
  = Returns (Finite 1,
             Finite (1 / sqrt (IZR (total_count
               [("000"%string, 5%Z); ("110"%string, 2%Z); ("111"%string, 1%Z)])))).
Proof.
  apply (proj1 compute_correlation_perfectly_correlated 3%nat).
  - repeat constructor; simpl; lia.
  - unfold position; simpl; lia.
  - unfold position; simpl; lia.
  - repeat constructor.
  - lia.
  - reflexivity.
Defined.

(** C9: [compute_correlation] does not compare the sum of the counts with
    [n_shots]: on measurement counts and any positive [n_shots] it returns
    (same - different) / n_shots without raising, so a declared shot count
    that differs from the sum can give a correlation above 1 or below -1. *)
Theorem compute_correlation_ignores_total :
  (forall (width : nat) (counts : Counts) (alice_idx bob_idx n_shots : Z),
      measurement_counts width counts ->
      position width alice_idx -> position width bob_idx ->
      (0 < n_shots)%Z ->
      compute_correlation counts alice_idx bob_idx n_shots
      = Returns (Finite (IZR (same_weight alice_idx bob_idx counts
                              - different_weight alice_idx bob_idx counts)
                         / IZR n_shots),
                 Finite (1 / sqrt (IZR n_shots))))
  /\ (exists (C : R) (error : float64),
         measurement_counts 2 [("00"%string, 2000%Z)]
         /\ total_count [("00"%string, 2000%Z)] <> 1000%Z
         /\ compute_correlation [("00"%string, 2000%Z)] 0 1 1000 = Returns (Finite C, error)
         /\ (1 < C)%R)
  /\ (exists (C : R) (error : float64),
         measurement_counts 2 [("01"%string, 2000%Z)]
         /\ total_count [("01"%string, 2000%Z)] <> 1000%Z
         /\ compute_correlation [("01"%string, 2000%Z)] 0 1 1000 = Returns (Finite C, error)
         /\ (C < -1)%R).
Proof.
  split; [exact compute_correlation_returns|].
  assert (Hp0 : position 2 0) by (unfold position; simpl; lia).
  assert (Hp1 : position 2 1) by (unfold position; simpl; lia).
  split.
  - assert (Hwf : measurement_counts 2 [("00"%string, 2000%Z)])
      by (repeat constructor; simpl; lia).
    eexists. eexists. split; [exact Hwf|]. split; [discriminate|]. split.
    + apply (compute_correlation_returns 2 _ 0 1 1000 Hwf Hp0 Hp1). lia.
    + replace (same_weight 0 1 [("00"%string, 2000%Z)]
               - different_weight 0 1 [("00"%string, 2000%Z)])%Z
        with 2000%Z by reflexivity.
      lra.
  - assert (Hwf : measurement_counts 2 [("01"%string, 2000%Z)])
      by (repeat constructor; simpl; lia).
    eexists. eexists. split; [exact Hwf|]. split; [discriminate|]. split.
    + apply (compute_correlation_returns 2 _ 0 1 1000 Hwf Hp0 Hp1). lia.
    + replace (same_weight 0 1 [("01"%string, 2000%Z)]
               - different_weight 0 1 [("01"%string, 2000%Z)])%Z
        with (-2000)%Z by reflexivity.
      lra.
Qed.

Lemma compute_correlation_ignores_total_witness :
  compute_correlation [("10"%string, 7%Z); ("11"%string, 4%Z)] 0 1 5
  = Returns (Finite (IZR (same_weight 0 1 [("10"%string, 7%Z); ("11"%string, 4%Z)]
                          - different_weight 0 1 [("10"%string, 7%Z); ("11"%string, 4%Z)])
                     / IZR 5),
             Finite (1 / sqrt (IZR 5))).
Proof.
  apply (proj1 compute_correlation_ignores_total 2%nat).
  - repeat constructor; simpl; lia.
  - unfold position; simpl; lia.
  - unfold position; simpl; lia.
  - lia.
Defined.

(** C3: on measurement counts whose outcomes contain the marker position,
    [verify_marker_erasure] returns the fraction of the total count whose
    marker bit is 0, a value in [0, 1]; it returns exactly 0, and does not
    raise, when the total count is zero, and on empty counts whatever the
    marker position. *)
Theorem verify_marker_erasure_probability :
  (forall (width : nat) (counts : Counts) (marker_idx : Z),
      measurement_counts width counts -> position width marker_idx ->
      exists p : R,
        verify_marker_erasure counts marker_idx = Returns (Finite p)
        /\ (0 <= p <= 1)%R
        /\ ((0 < total_count counts)%Z ->
            p = (IZR (zero_weight marker_idx counts) / IZR (total_count counts))%R)
        /\ (total_count counts = 0%Z -> p = 0%R))
  /\ (forall marker_idx : Z,
         verify_marker_erasure [] marker_idx = Returns (Finite 0)).
Proof.
  split; [|reflexivity].
  intros width counts marker_idx Hwf Hm.
  pose proof (weight_where_nonneg width (reads_zero marker_idx) counts Hwf) as Hz.
  pose proof (weight_where_nonneg width
                (fun s => negb (reads_zero marker_idx s)) counts Hwf) as Hnz.
  pose proof (weight_where_split (reads_zero marker_idx) counts) as Hsplit.
  fold (zero_weight marker_idx counts) in Hz, Hsplit.
  unfold verify_marker_erasure.
  rewrite (marker_loop width _ _ Hwf Hm). cbn [bind]. rewrite !Z.add_0_l.
  destruct (Z.ltb_spec 0 (total_count counts)) as [Hpos|Hzero].
  - unfold int_truediv.
    destruct (Z.eqb_spec (total_count counts) 0) as [?|_]; [lia|].
    eexists. split; [reflexivity|]. split; [|split; [reflexivity|lia]].
    apply part_in_unit_interval.
    + split; apply IZR_le; lia.
    + apply IZR_lt. exact Hpos.
  - exists 0%R. split; [reflexivity|]. split; [lra|]. split; [lia|reflexivity].
Qed.

Lemma verify_marker_erasure_probability_witness :
  exists p : R,
    verify_marker_erasure [("000"%string, 3%Z); ("001"%string, 1%Z)] 2 = Returns (Finite p)
    /\ (0 <= p <= 1)%R
    /\ ((0 < total_count [("000"%string, 3%Z); ("001"%string, 1%Z)])%Z ->
        p = (IZR (zero_weight 2 [("000"%string, 3%Z); ("001"%string, 1%Z)])
             / IZR (total_count [("000"%string, 3%Z); ("001"%string, 1%Z)]))%R)
    /\ (total_count [("000"%string, 3%Z); ("001"%string, 1%Z)] = 0%Z -> p = 0%R).
Proof.
  apply (proj1 verify_marker_erasure_probability 3%nat).
  - repeat constructor; simpl; lia.
  - unfold position; simpl; lia.
Defined.

End EstimatorProofs.

(** ** Properties of the circuit builder *)

Module CircuitProofs.
Import Py Experiment Spec.

(** C8: for every angle and role assignment the forward+reverse circuit is
    the forward-only circuit followed by the five-gate decomposition
    RY(theta/2), CNOT, RY(-theta/2), CNOT, RY(theta/2) taken at strength
    -theta; the builders are functions of their arguments alone, and the
    forward-only circuit is the Bell pair followed by the decomposition at
    strength theta. *)
Theorem circuit_with_reversal_appends_inverse :
  forall (alice bob marker : Z) (theta : float64),
    circuit_with_reversal alice bob marker theta
    = circuit_no_reversal alice bob marker theta
      ++ decomposition alice marker (fneg theta)
    /\ circuit_no_reversal alice bob marker theta
       = [h alice; cnot alice bob] ++ decomposition alice marker theta
    /\ circuit_with_reversal alice bob marker theta
       = [ h alice; cnot alice bob;
           ry marker (fdiv theta (of_int 2));
           cnot alice marker;
           ry marker (fdiv (fneg theta) (of_int 2));
           cnot alice marker;
           ry marker (fdiv theta (of_int 2));
           ry marker (fdiv (fneg theta) (of_int 2));
           cnot alice marker;
           ry marker (fdiv (fneg (fneg theta)) (of_int 2));
           cnot alice marker;
           ry marker (fdiv (fneg theta) (of_int 2)) ].
Proof.
  intros alice bob marker theta.
  unfold circuit_with_reversal, circuit_no_reversal, controlled_rotation_cnot,
    create_bell_state, decomposition.
  repeat split; simpl; rewrite <- ?app_assoc; reflexivity.
Qed.

End CircuitProofs.

(** ** Properties of the significance analysis *)

Module AnalysisProofs.
Import Py Analysis Spec.
Open Scope py_scope.

Lemma Rltb_iff (a b : R) : Rltb a b = true <-> (a < b)%R.
Proof. unfold Rltb. destruct (Rlt_dec a b); split; auto; discriminate. Qed.

Lemma Rltb_false_iff (a b : R) : Rltb a b = false <-> (b <= a)%R.
Proof.
  unfold Rltb. destruct (Rlt_dec a b); split; intros; try discriminate; try lra; auto.
Qed.

Lemma Reqb_iff (a b : R) : Reqb a b = true <-> a = b.
Proof. unfold Reqb. destruct (Req_dec_T a b); split; auto; discriminate. Qed.

Lemma Reqb_false_iff (a b : R) : Reqb a b = false <-> a <> b.
Proof.
  unfold Reqb. destruct (Req_dec_T a b); split; intros; try discriminate; auto.
  contradiction.
Qed.

Lemma feqb_90_iff (x : float64) : feqb x (of_int 90) = true <-> x = of_int 90.
Proof.
  unfold of_int. destruct x; simpl; try (split; discriminate).
  rewrite Reqb_iff. split; [intros ->; reflexivity|intros H; injection H; auto].
Qed.

Lemma bind_returns {A B : Type} (m : outcome A) (k : A -> outcome B) (b : B) :
  bind m k = Returns b -> exists a, m = Returns a /\ k a = Returns b.
Proof. destruct m; simpl; [eauto|discriminate]. Qed.

Lemma list_index_nth {A : Type} (l : list A) (i : nat) (a : A) :
  list_index l i = Returns a <-> nth_error l i = Some a.
Proof.
  unfold list_index. destruct (nth_error l i); split; intros H;
    try discriminate; injection H as ->; reflexivity.
Qed.

(** The first index [np.where] reports, if any, is the first position
    whose entry equals 90; it reports none when no entry does. *)
Lemma np_where_first (theta : list float64) :
  forall off,
    match np_where (map (fun t => feqb t (of_int 90)) theta) off with
    | [] => ~ In (of_int 90) theta
    | k :: _ =>
        (off <= k)%nat
        /\ nth_error theta (k - off) = Some (of_int 90)
        /\ forall j, (j < k - off)%nat -> nth_error theta j <> Some (of_int 90)
    end.
Proof.
  induction theta as [|t theta IH]; intros off; simpl.
  - tauto.
  - destruct (feqb t (of_int 90)) eqn:Ht.
    + apply feqb_90_iff in Ht. subst t.
      rewrite Nat.sub_diag. simpl. repeat split; [lia|]. intros j Hj. lia.
    + specialize (IH (S off)).
      assert (Hne : t <> of_int 90).
      { intros ->. rewrite (proj2 (feqb_90_iff _) eq_refl) in Ht. discriminate. }
      destruct (np_where (map (fun t0 => feqb t0 (of_int 90)) theta) (S off)) as [|k rest].
      * intros [H|H]; [congruence|contradiction].
      * destruct IH as (Hk & Hnth & Hfirst).
        replace (k - off)%nat with (S (k - S off)) by lia.
        simpl. repeat split; [lia|exact Hnth|].
        intros [|j] Hj; simpl; [congruence|]. apply Hfirst. lia.
Qed.

Lemma find_idx_90_found (theta : list float64) (i : nat) :
  find_idx_90 theta = Returns i ->
  nth_error theta i = Some (of_int 90)
  /\ forall j, (j < i)%nat -> nth_error theta j <> Some (of_int 90).
Proof.
  unfold find_idx_90. intros H. pose proof (np_where_first theta 0) as Hw.
  destruct (np_where (map (fun t => feqb t (of_int 90)) theta) 0) as [|k rest];
    simpl in H; [discriminate|].
  injection H as ->. rewrite Nat.sub_0_r in Hw. tauto.
Qed.


Lemma find_idx_90_present (theta : list float64) :
  In (of_int 90) theta -> exists i, find_idx_90 theta = Returns i.
Proof.
  unfold find_idx_90. intros Hin. pose proof (np_where_first theta 0) as Hw.
  destruct (np_where (map (fun t => feqb t (of_int 90)) theta) 0) as [|k rest];
    [contradiction|].
  exists k. reflexivity.
Qed.



(** *** The gap test *)

Lemma fabs_not_negative (x : float64) : not_negative (fabs x).
Proof. destruct x; simpl; auto. apply Rabs_pos. Qed.

Lemma fsqrt_not_negative (x : float64) : not_negative (fsqrt x).
Proof.
  destruct x; simpl; auto.
  destruct (Rltb r 0); simpl; auto. apply sqrt_pos.
Qed.

Lemma inf_of_sign_not_negative (r : R) : (0 <= r)%R -> not_negative (inf_of_sign r).
Proof.
  intros Hr. unfold inf_of_sign.
  destruct (Rltb 0 r); simpl; auto.
  destruct (Rltb r 0) eqn:E; simpl; auto.
  apply Rltb_iff in E. lra.
Qed.

Lemma fdiv_not_negative (x y : float64) :
  not_negative x -> not_negative y -> not_negative (fdiv x y).
Proof.
  destruct x as [a| | |], y as [b| | |]; simpl; intros Hx Hy; auto; try lra.
  - destruct (Reqb b 0) eqn:E.
    + apply inf_of_sign_not_negative. exact Hx.
    + apply Reqb_false_iff in E. simpl.
      apply Rmult_le_pos; [exact Hx|].
      apply Rlt_le, Rinv_0_lt_compat. lra.
  - destruct (Rltb b 0) eqn:E; simpl; auto.
    apply Rltb_iff in E. lra.
Qed.

(** Below the threshold means: a finite value that is less than 2. *)
Lemma fltb_two_iff (x : float64) :
  not_negative x ->
  (fltb x (of_int 2) = true <-> exists s, x = Finite s /\ (s < 2)%R).
Proof.
  unfold of_int. destruct x as [a| | |]; simpl; intros Hx.
  - rewrite Rltb_iff. split.
    + intros H. exists a. auto.
    + intros (s & Hs & Hlt). injection Hs as ->. exact Hlt.
  - split; [discriminate|intros (s & Hs & _); discriminate].
  - contradiction.
  - split; [discriminate|intros (s & Hs & _); discriminate].
Qed.

(** Dividing a non-negative gap by a zero error gives +infinity or NaN,
    and +infinity when the gap is a non-zero number. *)
Lemma fdiv_by_zero (x : float64) :
  not_negative x ->
  (fdiv x (Finite 0) = PosInf \/ fdiv x (Finite 0) = NaN)
  /\ (forall g, x = Finite g -> g <> 0%R -> fdiv x (Finite 0) = PosInf).
Proof.
  destruct x as [a| | |]; simpl; intros Hx.
  - rewrite (proj2 (Reqb_iff 0 0) eq_refl). unfold inf_of_sign.
    destruct (Rltb 0 a) eqn:E.
    + split; [auto|reflexivity].
    + apply Rltb_false_iff in E.
      assert (a = 0%R) by lra. subst a.
      rewrite (proj2 (Rltb_false_iff 0 0)) by lra.
      split; [auto|]. intros g Hg Hne. injection Hg as <-. contradiction.
  - rewrite (proj2 (Rltb_false_iff 0 0)) by lra.
    split; [auto|reflexivity].
  - contradiction.
  - split; [auto|discriminate].
Qed.

Lemma combined_error_finite (e1 e2 : R) :
  combined_error (Finite e1) (Finite e2) = Finite (sqrt (e1 * e1 + e2 * e2)).
Proof.
  unfold combined_error, fsquare. simpl.
  rewrite (proj2 (Rltb_false_iff (e1 * e1 + e2 * e2) 0)) by nra.
  reflexivity.
Qed.

Lemma fdiv_finite (a b : R) :
  b <> 0%R -> fdiv (Finite a) (Finite b) = Finite (a / b).
Proof.
  intros Hb. simpl. rewrite (proj2 (Reqb_false_iff b 0) Hb). reflexivity.
Qed.

(** The value of [analyze_restoration_failure] once the five reads at the
    90-degree index succeed. *)
Lemma analyze_restoration_failure_reads (norm_cdf : float64 -> float64)
    (data : Document.t) (i : nat) (C_std C_rev err_std err_rev : float64) :
  find_idx_90 (DataDict.theta (Document.data data)) = Returns i ->
  nth_error (DataDict.C_standard (Document.data data)) i = Some C_std ->
  nth_error (DataDict.C_with_reversal (Document.data data)) i = Some C_rev ->
  nth_error (DataDict.C_standard_err (Document.data data)) i = Some err_std ->
  nth_error (DataDict.C_with_reversal_err (Document.data data)) i = Some err_rev ->
  analyze_restoration_failure norm_cdf data
  = Returns (Restoration.Build 90 C_std C_rev
      (fabs (fsub C_std C_rev))
      (fdiv (fabs (fsub C_std C_rev)) (combined_error err_std err_rev))
      (fdiv (fabs (fsub C_std C_rev)) (combined_error err_std err_rev))
      (fmul (of_int 2)
         (fsub (of_int 1)
            (norm_cdf (fabs (fdiv (fabs (fsub C_std C_rev))
                                  (combined_error err_std err_rev))))))).
Proof.
  intros Hi H1 H2 H3 H4.
  unfold analyze_restoration_failure, extract_arrays.
  cbn [Document.data DataDict.theta DataDict.C_standard DataDict.C_with_reversal
       DataDict.C_standard_err DataDict.C_with_reversal_err].
  rewrite Hi. cbn [bind].
  rewrite (proj2 (list_index_nth _ _ _) H1). cbn [bind].
  rewrite (proj2 (list_index_nth _ _ _) H2). cbn [bind].
  rewrite (proj2 (list_index_nth _ _ _) H3). cbn [bind].
  rewrite (proj2 (list_index_nth _ _ _) H4). cbn [bind].
  reflexivity.
Qed.

(** The value of [test_erasure_vs_no_erasure] once the five reads at the
    90-degree index succeed. *)
Lemma test_erasure_vs_no_erasure_reads (data : Document.t) (i : nat)
    (C_no_rev C_with_rev err_no err_with : float64) :
  find_idx_90 (DataDict.theta (Document.data data)) = Returns i ->
  nth_error (DataDict.C_no_reversal (Document.data data)) i = Some C_no_rev ->
  nth_error (DataDict.C_with_reversal (Document.data data)) i = Some C_with_rev ->
  nth_error (DataDict.C_no_reversal_err (Document.data data)) i = Some err_no ->
  nth_error (DataDict.C_with_reversal_err (Document.data data)) i = Some err_with ->
  test_erasure_vs_no_erasure data
  = Returns (Comparison.Build C_no_rev C_with_rev
      (fabs (fsub C_with_rev C_no_rev))
      (fdiv (fabs (fsub C_with_rev C_no_rev)) (combined_error err_no err_with))
      (fltb (fdiv (fabs (fsub C_with_rev C_no_rev)) (combined_error err_no err_with))
            (of_int 2))).
Proof.
  intros Hi H1 H2 H3 H4.
  unfold test_erasure_vs_no_erasure, extract_arrays.
  cbn [Document.data DataDict.theta DataDict.C_no_reversal DataDict.C_with_reversal
       DataDict.C_no_reversal_err DataDict.C_with_reversal_err].
  rewrite Hi. cbn [bind].
  rewrite (proj2 (list_index_nth _ _ _) H1). cbn [bind].
  rewrite (proj2 (list_index_nth _ _ _) H2). cbn [bind].
  rewrite (proj2 (list_index_nth _ _ _) H3). cbn [bind].
  rewrite (proj2 (list_index_nth _ _ _) H4). cbn [bind].
  reflexivity.
Qed.

(** Whatever [test_erasure_vs_no_erasure] returns has this shape. *)
Lemma test_erasure_vs_no_erasure_shape (data : Document.t) (c : Comparison.t) :
  test_erasure_vs_no_erasure data = Returns c ->
  exists C_no_rev C_with_rev err_no err_with,
    c = Comparison.Build C_no_rev C_with_rev
          (fabs (fsub C_with_rev C_no_rev))
          (fdiv (fabs (fsub C_with_rev C_no_rev)) (combined_error err_no err_with))
          (fltb (fdiv (fabs (fsub C_with_rev C_no_rev))
                      (combined_error err_no err_with))
                (of_int 2)).
Proof.
  intros H. unfold test_erasure_vs_no_erasure in H.
  apply bind_returns in H as (i & _ & H).
  apply bind_returns in H as (C_no & _ & H).
  apply bind_returns in H as (C_with & _ & H).
  apply bind_returns in H as (e_no & _ & H).
  apply bind_returns in H as (e_with & _ & H).
  injection H as <-. exists C_no, C_with, e_no, e_with. reflexivity.
Qed.

Lemma single_angle_idx (a b c d e f : R) :
  find_idx_90 (DataDict.theta (Document.data (single_angle a b c d e f)))
  = Returns 0%nat.
Proof.
  unfold find_idx_90, single_angle.
  cbn [Document.data DataDict.theta map np_where].
  rewrite (proj2 (feqb_90_iff (of_int 90)) eq_refl). reflexivity.
Qed.

(** The record [two_sigma_data] has significance exactly 2. *)
Lemma two_sigma_data_significance :
  exists c, test_erasure_vs_no_erasure two_sigma_data = Returns c
            /\ Comparison.significance_sigma c = Finite 2.
Proof.
  eexists. split.
  - apply (test_erasure_vs_no_erasure_reads two_sigma_data 0
             (Finite 0) (Finite 10) (Finite 3) (Finite 4));
      [apply single_angle_idx|reflexivity..].
  - cbn [Comparison.significance_sigma].
    rewrite combined_error_finite.
    replace (3 * 3 + 4 * 4)%R with (5 * 5)%R by lra.
    rewrite sqrt_square by lra.
    cbn [fsub fneg fadd fabs].
    rewrite fdiv_finite by lra.
    rewrite Rabs_pos_eq by lra. f_equal. lra.
Qed.

(** C4: the comparison is classified statistically indistinguishable
    ([statistically_same] is true) exactly when its significance is a number
    strictly less than 2, and distinguishable otherwise; a significance of
    exactly 2 is distinguishable, and the record [two_sigma_data] reaches that
    boundary.  The threshold is the constant 2 of the code: the operation has
    no other argument than the record. *)
Theorem equivalence_threshold_is_two :
  (forall (data : Document.t) (c : Comparison.t),
      test_erasure_vs_no_erasure data = Returns c ->
      (Comparison.statistically_same c = true
       <-> exists s, Comparison.significance_sigma c = Finite s /\ (s < 2)%R)
      /\ (Comparison.significance_sigma c = Finite 2 ->
          Comparison.statistically_same c = false))
  /\ (exists c, test_erasure_vs_no_erasure two_sigma_data = Returns c
                /\ Comparison.significance_sigma c = Finite 2
                /\ Comparison.statistically_same c = false).
Proof.
  assert (General : forall (data : Document.t) (c : Comparison.t),
      test_erasure_vs_no_erasure data = Returns c ->
      (Comparison.statistically_same c = true
       <-> exists s, Comparison.significance_sigma c = Finite s /\ (s < 2)%R)
      /\ (Comparison.significance_sigma c = Finite 2 ->
          Comparison.statistically_same c = false)).
  { intros data c H.
    destruct (test_erasure_vs_no_erasure_shape data c H)
      as (C_no & C_with & e_no & e_with & ->).
    cbn [Comparison.statistically_same Comparison.significance_sigma].
    split.
    - apply fltb_two_iff. apply fdiv_not_negative.
      + apply fabs_not_negative.
      + apply fsqrt_not_negative.
    - intros ->. unfold of_int. simpl. apply Rltb_false_iff. lra. }
  split; [exact General|].
  destruct two_sigma_data_significance as (c & Hc & Hsig).
  exists c. split; [exact Hc|]. split; [exact Hsig|].
  apply (General two_sigma_data c Hc). exact Hsig.
Qed.

Lemma equivalence_threshold_is_two_witness :
  exists c, test_erasure_vs_no_erasure two_sigma_data = Returns c
            /\ Comparison.significance_sigma c = Finite 2
            /\ Comparison.statistically_same c = false.
Proof.
  destruct two_sigma_data_significance as (c & Hc & Hsig).
  exists c. split; [exact Hc|]. split; [exact Hsig|].
  apply (proj1 equivalence_threshold_is_two two_sigma_data c Hc). exact Hsig.
Defined.

Lemma zero_error_data_comparison :
  test_erasure_vs_no_erasure zero_error_data
  = Returns (Comparison.Build (Finite (1 / 2)) (Finite 0)
               (Finite (Rabs (0 + - (1 / 2)))) PosInf false).
Proof.
  rewrite (test_erasure_vs_no_erasure_reads zero_error_data 0
             (Finite (1 / 2)) (Finite 0) (Finite 0) (Finite 0));
    [|apply single_angle_idx|reflexivity..].
  rewrite combined_error_finite.
  replace (0 * 0 + 0 * 0)%R with (0 * 0)%R by lra.
  rewrite sqrt_square by lra.
  cbn [fsub fneg fadd fabs].
  assert (Hgap : Rabs (0 + - (1 / 2)) = (1 / 2)%R).
  { replace (0 + - (1 / 2))%R with (- (1 / 2))%R by lra.
    rewrite Rabs_Ropp. apply Rabs_pos_eq. lra. }
  destruct (fdiv_by_zero (Finite (Rabs (0 + - (1 / 2))))) as [_ Hinf];
    [simpl; apply Rabs_pos|].
  rewrite (Hinf _ eq_refl) by (rewrite Hgap; lra).
  reflexivity.
Qed.

Lemma zero_error_data_restoration (norm_cdf : float64 -> float64) :
  exists r, analyze_restoration_failure norm_cdf zero_error_data = Returns r
            /\ Restoration.significance_sigma r = PosInf.
Proof.
  eexists. split.
  - apply (analyze_restoration_failure_reads norm_cdf zero_error_data 0
             (Finite 1) (Finite 0) (Finite 0) (Finite 0));
      [apply single_angle_idx|reflexivity..].
  - cbn [Restoration.significance_sigma].
    rewrite combined_error_finite.
    replace (0 * 0 + 0 * 0)%R with (0 * 0)%R by lra.
    rewrite sqrt_square by lra.
    cbn [fsub fneg fadd fabs].
    destruct (fdiv_by_zero (Finite (Rabs (1 + - 0)))) as [_ Hinf];
      [simpl; apply Rabs_pos|].
    apply (Hinf _ eq_refl).
    replace (1 + - 0)%R with 1%R by lra. rewrite Rabs_pos_eq; lra.
Qed.

(** C2, as stated, fails: on [zero_error_data] the combined error at 90
    degrees is zero, yet both operations return normally with significance
    +infinity, the quotient of the division, and the comparison is
    classified as distinguishable; nothing undefined is signalled. *)
Lemma zero_combined_error_is_divided :
  combined_error (Finite 0) (Finite 0) = Finite 0
  /\ test_erasure_vs_no_erasure zero_error_data
     = Returns (Comparison.Build (Finite (1 / 2)) (Finite 0)
                  (Finite (Rabs (0 + - (1 / 2)))) PosInf false)
  /\ ~ signals_undefined Comparison.significance_sigma
         (test_erasure_vs_no_erasure zero_error_data)
  /\ ~ signals_undefined Restoration.significance_sigma
         (analyze_restoration_failure (fun _ => Finite (1 / 2)) zero_error_data).
Proof.
  split; [|split; [|split]].
  - rewrite combined_error_finite.
    replace (0 * 0 + 0 * 0)%R with (0 * 0)%R by lra.
    rewrite sqrt_square by lra. reflexivity.
  - exact zero_error_data_comparison.
  - rewrite zero_error_data_comparison. simpl. discriminate.
  - destruct (zero_error_data_restoration (fun _ => Finite (1 / 2))) as (r & Hr & Hsig).
    rewrite Hr. simpl. rewrite Hsig. discriminate.
Qed.

(** C2, amended: the gap test divides unconditionally.  Whenever the five
    entries at the 90-degree index are read and their combined error is
    zero, both operations return normally with significance = gap / 0 as
    numpy computes it: +infinity or NaN, and +infinity when the gap is a
    non-zero number; the comparison is then classified as distinguishable. *)
Theorem gap_test_divides_unconditionally :
  (forall (norm_cdf : float64 -> float64) (data : Document.t) (i : nat)
          (C_std C_rev err_std err_rev : float64),
      find_idx_90 (DataDict.theta (Document.data data)) = Returns i ->
      nth_error (DataDict.C_standard (Document.data data)) i = Some C_std ->
      nth_error (DataDict.C_with_reversal (Document.data data)) i = Some C_rev ->
      nth_error (DataDict.C_standard_err (Document.data data)) i = Some err_std ->
      nth_error (DataDict.C_with_reversal_err (Document.data data)) i = Some err_rev ->
      combined_error err_std err_rev = Finite 0 ->
      exists r,
        analyze_restoration_failure norm_cdf data = Returns r
        /\ Restoration.gap r = fabs (fsub C_std C_rev)
        /\ Restoration.significance_sigma r = fdiv (Restoration.gap r) (Finite 0)
        /\ (Restoration.significance_sigma r = PosInf
            \/ Restoration.significance_sigma r = NaN)
        /\ (forall g, Restoration.gap r = Finite g -> g <> 0%R ->
            Restoration.significance_sigma r = PosInf))
  /\ (forall (data : Document.t) (i : nat)
             (C_no_rev C_with_rev err_no err_with : float64),
      find_idx_90 (DataDict.theta (Document.data data)) = Returns i ->
      nth_error (DataDict.C_no_reversal (Document.data data)) i = Some C_no_rev ->
      nth_error (DataDict.C_with_reversal (Document.data data)) i = Some C_with_rev ->
      nth_error (DataDict.C_no_reversal_err (Document.data data)) i = Some err_no ->
      nth_error (DataDict.C_with_reversal_err (Document.data data)) i = Some err_with ->
      combined_error err_no err_with = Finite 0 ->
      exists c,
        test_erasure_vs_no_erasure data = Returns c
        /\ Comparison.difference c = fabs (fsub C_with_rev C_no_rev)
        /\ Comparison.significance_sigma c = fdiv (Comparison.difference c) (Finite 0)
        /\ (Comparison.significance_sigma c = PosInf
            \/ Comparison.significance_sigma c = NaN)
        /\ (forall g, Comparison.difference c = Finite g -> g <> 0%R ->
            Comparison.significance_sigma c = PosInf)
        /\ Comparison.statistically_same c = false).
Proof.
  split.
  - intros norm_cdf data i C_std C_rev err_std err_rev Hi H1 H2 H3 H4 Hzero.
    eexists. split.
    + apply (analyze_restoration_failure_reads norm_cdf data i _ _ _ _ Hi H1 H2 H3 H4).
    + cbn [Restoration.gap Restoration.significance_sigma]. rewrite Hzero.
      destruct (fdiv_by_zero (fabs (fsub C_std C_rev)) (fabs_not_negative _))
        as [Hcases Hinf].
      repeat split; auto.
  - intros data i C_no_rev C_with_rev err_no err_with Hi H1 H2 H3 H4 Hzero.
    eexists. split.
    + apply (test_erasure_vs_no_erasure_reads data i _ _ _ _ Hi H1 H2 H3 H4).
    + cbn [Comparison.difference Comparison.significance_sigma
           Comparison.statistically_same]. rewrite Hzero.
      destruct (fdiv_by_zero (fabs (fsub C_with_rev C_no_rev)) (fabs_not_negative _))
        as [Hcases Hinf].
      repeat split; auto.
      destruct Hcases as [-> | ->]; reflexivity.
Qed.

Lemma gap_test_divides_unconditionally_witness :
  exists c,
    test_erasure_vs_no_erasure zero_error_data = Returns c
    /\ Comparison.difference c = fabs (fsub (Finite 0) (Finite (1 / 2)))
    /\ Comparison.significance_sigma c = fdiv (Comparison.difference c) (Finite 0)
    /\ (Comparison.significance_sigma c = PosInf
        \/ Comparison.significance_sigma c = NaN)
    /\ (forall g, Comparison.difference c = Finite g -> g <> 0%R ->
        Comparison.significance_sigma c = PosInf)
    /\ Comparison.statistically_same c = false.
Proof.
  apply (proj2 gap_test_divides_unconditionally zero_error_data 0
           (Finite (1 / 2)) (Finite 0) (Finite 0) (Finite 0)).
  - apply single_angle_idx.
  - reflexivity.
  - reflexivity.
  - reflexivity.
  - reflexivity.
  - rewrite combined_error_finite.
    replace (0 * 0 + 0 * 0)%R with (0 * 0)%R by lra.
    rewrite sqrt_square by lra. reflexivity.
Defined.

End AnalysisProofs.

(** ** Properties of the run driver *)

Module DriverProofs.
Import Py Experiment Analysis Spec EstimatorProofs AnalysisProofs.
Open Scope py_scope.

Lemma for_each_app {A S : Type} (body : S -> A -> outcome S) (xs ys : list A) :
  forall s, for_each body (xs ++ ys) s = bind (for_each body xs s) (for_each body ys).
Proof.
  induction xs as [|x xs IH]; intros s; simpl; [reflexivity|].
  destruct (body s x); simpl; auto.
Qed.

Lemma nth_error_of_length {A : Type} (l : list A) (n i : nat) :
  List.length l = n -> (i < n)%nat -> exists a, nth_error l i = Some a.
Proof.
  intros Hlen Hi. destruct (nth_error l i) eqn:E; [eauto|].
  apply nth_error_None in E. lia.
Qed.

Lemma feqb_of_int (a b : Z) : feqb (of_int a) (of_int b) = (a =? b)%Z.
Proof.
  unfold of_int. simpl. destruct (Z.eqb_spec a b) as [->|Hne].
  - apply Reqb_iff. reflexivity.
  - apply Reqb_false_iff. intros H. apply eq_IZR in H. contradiction.
Qed.

(** The lookup of 90 in a sequence of integer angles. *)
Lemma find_idx_90_of_int (angles : list Z) :
  find_idx_90 (map of_int angles)
  = list_index (np_where (map (fun z => (z =? 90)%Z) angles) 0) 0.
Proof.
  unfold find_idx_90. rewrite map_map. do 2 f_equal.
  apply map_ext. intros z. apply feqb_of_int.
Qed.

Lemma zero_string_length (w : nat) :
  String.length (String.concat "" (repeat "0"%string w)) = w.
Proof.
  induction w as [|[|w] IH]; simpl in *; auto.
Qed.

Lemma zero_string_bits (w : nat) :
  is_bitstring (String.concat "" (repeat "0"%string w)) = true.
Proof.
  induction w as [|[|w] IH]; simpl in *; auto.
Qed.

Lemma all_zero_run_answers : answers_every_submission all_zero_run.
Proof.
  intros device circuit shots Hshots. unfold all_zero_run.
  eexists. eexists. split; [reflexivity|]. split.
  - constructor; [|constructor]. simpl.
    split; [apply zero_string_length|]. split; [apply zero_string_bits|exact Hshots].
  - unfold total_count. simpl. lia.
Qed.

Section Driver.

Variable Device : Type.
Variable AwsDevice : string -> Device.
Variable Devices_Amazon_SV1 : string.
Variable device_run : Device -> Circuit -> Z -> outcome (Counts * Device).
Variable now_isoformat : string.

(** One pass of the loop body appends one element to each of the eight
    sequences, the angle to [theta], and leaves the metadata alone. *)
Lemma run_angle_appends (results results' : Results.t) (device device' : Device)
    (theta_deg : Z) :
  run_angle device_run (results, device) theta_deg = Returns (results', device') ->
  Data.theta (Results.data results')
  = Data.theta (Results.data results) ++ [theta_deg]
  /\ forall n, aligned n results -> aligned (S n) results'.
Proof.
  intros H. unfold run_angle in H.
  apply bind_returns in H as ([counts1 device1] & _ & H).
  apply bind_returns in H as ([C_std C_std_err] & _ & H).
  apply bind_returns in H as ([counts2 device2] & _ & H).
  apply bind_returns in H as ([C_no_rev C_no_rev_err] & _ & H).
  apply bind_returns in H as ([counts3 device3] & _ & H).
  apply bind_returns in H as ([C_rev C_rev_err] & _ & H).
  apply bind_returns in H as (marker_erased & _ & H).
  injection H as <- <-.
  split; [reflexivity|].
  unfold aligned. cbn [Results.data Results.raw_counts Data.theta Data.C_standard
    Data.C_standard_err Data.C_no_reversal Data.C_no_reversal_err
    Data.C_with_reversal Data.C_with_reversal_err].
  intros n (H1 & H2 & H3 & H4 & H5 & H6 & H7 & H8).
  rewrite !length_app. simpl. repeat split; lia.
Qed.

(** The loop invariant: processing a list of angles from an aligned record
    extends every sequence by the number of angles and [theta] by the
    angles themselves. *)
Lemma run_angles_aligned (angles : list Z) :
  forall (state state' : Results.t * Device) (n : nat),
    run_angles device_run angles state = Returns state' ->
    Data.theta (Results.data (fst state'))
    = Data.theta (Results.data (fst state)) ++ angles
    /\ (aligned n (fst state) -> aligned (n + List.length angles) (fst state')).
Proof.
  unfold run_angles.
  induction angles as [|theta_deg angles IH]; intros state state' n H; simpl in H.
  - injection H as <-. rewrite app_nil_r, Nat.add_0_r. auto.
  - apply bind_returns in H as ([results1 device1] & Hstep & H).
    destruct state as [results device].
    apply run_angle_appends in Hstep as [Htheta Hal].
    destruct (IH _ _ (S n) H) as [Htheta' Hal'].
    cbn [fst] in *. split.
    + rewrite Htheta', Htheta, <- app_assoc. reflexivity.
    + intros Hn. simpl List.length. rewrite Nat.add_succ_r. apply Hal', Hal, Hn.
Qed.

Lemma initial_results_aligned : aligned 0 (initial_results now_isoformat).
Proof. unfold aligned. simpl. repeat split. Qed.

Lemma run_experiment_aligned (use_simulator : bool) (results : Results.t) :
  run_experiment AwsDevice Devices_Amazon_SV1 device_run now_isoformat use_simulator
  = Returns results ->
  Data.theta (Results.data results) = THETA_VALUES
  /\ aligned (List.length THETA_VALUES) results.
Proof.
  intros H. unfold run_experiment in H.
  apply bind_returns in H as ([results' device'] & Hrun & H).
  injection H as <-.
  destruct (run_angles_aligned _ _ _ 0%nat Hrun) as [Htheta Hal].
  cbn [fst] in *. split; [exact Htheta|].
  apply Hal, initial_results_aligned.
Qed.

(** With a device that answers every submission, one pass of the loop
    body returns. *)
Lemma run_angle_returns (state : Results.t * Device) (theta_deg : Z) :
  answers_every_submission device_run ->
  exists state', run_angle device_run state theta_deg = Returns state'.
Proof.
  intros Hdev. destruct state as [results device]. unfold run_angle.
  assert (Hshots : (0 <= N_SHOTS)%Z) by (unfold N_SHOTS; lia).
  assert (Hpos : (0 < N_SHOTS)%Z) by (unfold N_SHOTS; lia).
  assert (Ha2 : position 2 ALICE_QUBIT) by (unfold position, ALICE_QUBIT; simpl; lia).
  assert (Hb2 : position 2 BOB_QUBIT) by (unfold position, BOB_QUBIT; simpl; lia).
  assert (Ha3 : position 3 ALICE_QUBIT) by (unfold position, ALICE_QUBIT; simpl; lia).
  assert (Hb3 : position 3 BOB_QUBIT) by (unfold position, BOB_QUBIT; simpl; lia).
  assert (Hm3 : position 3 MARKER_QUBIT) by (unfold position, MARKER_QUBIT; simpl; lia).
  destruct (Hdev device
              (add_measurements (circuit_standard_bell ALICE_QUBIT BOB_QUBIT)
                 [ALICE_QUBIT; BOB_QUBIT]) N_SHOTS Hshots)
    as (counts1 & device1 & -> & Hwf1 & _).
  cbn [bind]. change (measured_width _) with 2%nat in Hwf1.
  rewrite (compute_correlation_returns 2 _ _ _ _ Hwf1 Ha2 Hb2 Hpos). cbn [bind].
  destruct (Hdev device1
              (add_measurements
                 (circuit_no_reversal ALICE_QUBIT BOB_QUBIT MARKER_QUBIT
                    (deg2rad theta_deg))
                 [ALICE_QUBIT; BOB_QUBIT; MARKER_QUBIT]) N_SHOTS Hshots)
    as (counts2 & device2 & -> & Hwf2 & _).
  cbn [bind]. change (measured_width _) with 3%nat in Hwf2.
  rewrite (compute_correlation_returns 3 _ _ _ _ Hwf2 Ha3 Hb3 Hpos). cbn [bind].
  destruct (Hdev device2
              (add_measurements
                 (circuit_with_reversal ALICE_QUBIT BOB_QUBIT MARKER_QUBIT
                    (deg2rad theta_deg))
                 [ALICE_QUBIT; BOB_QUBIT; MARKER_QUBIT]) N_SHOTS Hshots)
    as (counts3 & device3 & -> & Hwf3 & _).
  cbn [bind]. change (measured_width _) with 3%nat in Hwf3.
  rewrite (compute_correlation_returns 3 _ _ _ _ Hwf3 Ha3 Hb3 Hpos). cbn [bind].
  rewrite (verify_marker_erasure_returns 3 _ _ Hwf3 Hm3). cbn [bind].
  eexists. reflexivity.
Qed.

Lemma run_angles_returns (angles : list Z) :
  answers_every_submission device_run ->
  forall state, exists state', run_angles device_run angles state = Returns state'.
Proof.
  intros Hdev. unfold run_angles.
  induction angles as [|theta_deg angles IH]; intros state; simpl.
  - eauto.
  - destruct (run_angle_returns state theta_deg Hdev) as [state1 ->]. apply IH.
Qed.

Lemma run_experiment_returns (use_simulator : bool) :
  answers_every_submission device_run ->
  exists results,
    run_experiment AwsDevice Devices_Amazon_SV1 device_run now_isoformat use_simulator
    = Returns results.
Proof.
  intros Hdev. unfold run_experiment.
  destruct (run_angles_returns THETA_VALUES Hdev
              (initial_results now_isoformat,
               select_device AwsDevice Devices_Amazon_SV1 use_simulator))
    as [[results device] ->].
  eexists. reflexivity.
Qed.

(** C7: at every point of the loop of [run_experiment], that is after any
    initial part [processed] of the angle list, the seven data sequences and
    [raw_counts] all have the length of [processed]; when the run completes
    they all have the length of the angle list; and the run does complete
    when the device answers every submission. *)
Theorem sequences_stay_aligned :
  forall use_simulator : bool,
    (forall (processed rest : list Z) (state : Results.t * Device),
        THETA_VALUES = processed ++ rest ->
        run_angles device_run processed
          (initial_results now_isoformat,
           select_device AwsDevice Devices_Amazon_SV1 use_simulator)
        = Returns state ->
        aligned (List.length processed) (fst state)
        /\ run_angles device_run THETA_VALUES
             (initial_results now_isoformat,
              select_device AwsDevice Devices_Amazon_SV1 use_simulator)
           = run_angles device_run rest state)
    /\ (forall results : Results.t,
        run_experiment AwsDevice Devices_Amazon_SV1 device_run now_isoformat
          use_simulator = Returns results ->
        aligned (List.length THETA_VALUES) results)
    /\ (answers_every_submission device_run ->
        exists results : Results.t,
          run_experiment AwsDevice Devices_Amazon_SV1 device_run now_isoformat
            use_simulator = Returns results
          /\ aligned (List.length THETA_VALUES) results).
Proof.
  intros use_simulator. split; [|split].
  - intros processed rest state Hsplit Hrun. split.
    + destruct (run_angles_aligned _ _ _ 0%nat Hrun) as [_ Hal].
      apply Hal, initial_results_aligned.
    + rewrite Hsplit. unfold run_angles in *.
      rewrite for_each_app, Hrun. reflexivity.
  - intros results H. apply (run_experiment_aligned use_simulator results H).
  - intros Hdev. destruct (run_experiment_returns use_simulator Hdev) as [results H].
    exists results. split; [exact H|].
    apply (run_experiment_aligned use_simulator results H).
Qed.

(** C10: whatever the device measures, a record produced by
    [run_experiment] has the theta sequence 0, 30, 60, 90, 120, 150, 180;
    it contains 90, so after the JSON round trip the exact-equality lookup
    finds index 3 and both analysis operations return a result. *)
Theorem produced_theta_is_the_angle_list :
  forall (use_simulator : bool) (results : Results.t),
    run_experiment AwsDevice Devices_Amazon_SV1 device_run now_isoformat
      use_simulator = Returns results ->
    Data.theta (Results.data results) = [0; 30; 60; 90; 120; 150; 180]%Z
    /\ In 90%Z (Data.theta (Results.data results))
    /\ find_idx_90 (DataDict.theta (Document.data (reload results))) = Returns 3%nat
    /\ (forall norm_cdf : float64 -> float64,
           exists r, analyze_restoration_failure norm_cdf (reload results) = Returns r)
    /\ (exists c, test_erasure_vs_no_erasure (reload results) = Returns c).
Proof.
  intros use_simulator results H.
  destruct (run_experiment_aligned use_simulator results H)
    as (Htheta & _ & H2 & H3 & H4 & H5 & H6 & H7 & _).
  assert (Hidx : find_idx_90 (DataDict.theta (Document.data (reload results)))
                 = Returns 3%nat).
  { unfold reload. cbn [Document.data DataDict.theta].
    rewrite Htheta, find_idx_90_of_int. reflexivity. }
  assert (Hlt : (3 < List.length THETA_VALUES)%nat) by (simpl; lia).
  destruct (nth_error_of_length _ _ 3 H2 Hlt) as [C_std E2].
  destruct (nth_error_of_length _ _ 3 H3 Hlt) as [err_std E3].
  destruct (nth_error_of_length _ _ 3 H4 Hlt) as [C_no E4].
  destruct (nth_error_of_length _ _ 3 H5 Hlt) as [err_no E5].
  destruct (nth_error_of_length _ _ 3 H6 Hlt) as [C_rev E6].
  destruct (nth_error_of_length _ _ 3 H7 Hlt) as [err_rev E7].
  split; [exact Htheta|]. split; [rewrite Htheta; simpl; tauto|].
  split; [exact Hidx|]. split.
  - intros norm_cdf. eexists.
    apply (analyze_restoration_failure_reads norm_cdf (reload results) 3
             C_std C_rev err_std err_rev Hidx); assumption.
  - eexists.
    apply (test_erasure_vs_no_erasure_reads (reload results) 3
             C_no C_rev err_no err_rev Hidx); assumption.
Qed.

End Driver.

Lemma sequences_stay_aligned_witness :
  exists results : Results.t,
    run_experiment (fun _ : string => tt) "sv1" all_zero_run "2026-01-01T00:00:00" true
    = Returns results
    /\ aligned (List.length THETA_VALUES) results.
Proof.
  apply (proj2 (proj2 (@sequences_stay_aligned unit (fun _ : string => tt)
                         "sv1"%string all_zero_run "2026-01-01T00:00:00"%string true))).
  exact all_zero_run_answers.
Defined.

Lemma produced_theta_is_the_angle_list_witness :
  exists results : Results.t,
    run_experiment (fun _ : string => tt) "sv1" all_zero_run "2026-01-01T00:00:00" true
    = Returns results
    /\ Data.theta (Results.data results) = [0; 30; 60; 90; 120; 150; 180]%Z
    /\ find_idx_90 (DataDict.theta (Document.data (reload results))) = Returns 3%nat.
Proof.
  destruct (@run_experiment_returns unit (fun _ : string => tt) "sv1"%string
              all_zero_run "2026-01-01T00:00:00"%string true all_zero_run_answers)
    as [results H].
  exists results. split; [exact H|].
  pose proof (@produced_theta_is_the_angle_list unit (fun _ : string => tt)
                "sv1"%string all_zero_run "2026-01-01T00:00:00"%string true results H)
    as (Ht & _ & Hi & _).
  auto.
Defined.

End DriverProofs.

(** ** Further properties of the estimators *)

Module EstimatorExtras.
Import Py Experiment Spec EstimatorProofs AnalysisProofs.
Open Scope py_scope.

Lemma weight_where_ext (p q : string -> bool) (counts : Counts) :
  (forall s, p s = q s) -> weight_where p counts = weight_where q counts.
Proof.
  intros Hpq. induction counts as [|[s c] rest IH]; simpl; [reflexivity|].
  rewrite Hpq, IH. reflexivity.
Qed.

Lemma weight_where_permutation (p : string -> bool) (counts counts' : Counts) :
  Permutation counts counts' -> weight_where p counts = weight_where p counts'.
Proof.
  induction 1 as [|[s c] l l' _ IH|[s c] [s' c'] l|l l' l'' _ IH1 _ IH2]; simpl.
  - reflexivity.
  - rewrite IH. reflexivity.
  - lia.
  - congruence.
Qed.

Lemma measurement_counts_permutation (width : nat) (counts counts' : Counts) :
  Permutation counts counts' ->
  measurement_counts width counts -> measurement_counts width counts'.
Proof. intros Hp. unfold measurement_counts. apply Permutation_Forall. exact Hp. Qed.

Lemma bits_agree_sym (i j : Z) (s : string) : bits_agree i j s = bits_agree j i s.
Proof.
  unfold bits_agree.
  destruct (String.get (Z.to_nat i) s) as [a|], (String.get (Z.to_nat j) s) as [b|];
    try reflexivity.
  destruct (Ascii.eqb_spec a b), (Ascii.eqb_spec b a); congruence.
Qed.

(** A loop that returns has run its body to completion on every element. *)
Lemma for_each_returns_each {A S : Type} (body : S -> A -> outcome S) (xs : list A) :
  forall s s', for_each body xs s = Returns s' ->
  forall x, In x xs -> exists s1 s2, body s1 x = Returns s2.
Proof.
  induction xs as [|y xs IH]; intros s s' H x Hin; simpl in *; [contradiction|].
  apply bind_returns in H as (s1 & Hy & H).
  destruct Hin as [<-|Hin]; [eauto|]. eapply IH; eauto.
Qed.

(** A loop that raises does so in its body, on one of the elements. *)
Lemma for_each_raises_in_body {A S : Type} (body : S -> A -> outcome S) (xs : list A) :
  forall s e, for_each body xs s = Raises e ->
  exists s1 x, In x xs /\ body s1 x = Raises e.
Proof.
  induction xs as [|y xs IH]; intros s e H; simpl in *; [discriminate|].
  destruct (body s y) as [s1|e1] eqn:Hy; simpl in H.
  - destruct (IH _ _ H) as (s2 & x & Hin & Hx). eauto.
  - injection H as <-. eauto.
Qed.

Lemma str_index_returns_range (s : string) (i : Z) (c : ascii) :
  str_index s i = Returns c ->
  (- Z.of_nat (String.length s) <= i < Z.of_nat (String.length s))%Z.
Proof.
  unfold str_index. intros H.
  destruct (Z.ltb_spec i 0);
    destruct (Z.ltb_spec (i + Z.of_nat (String.length s)) 0);
    destruct (Z.ltb_spec i 0);
    destruct (Z.leb_spec (Z.of_nat (String.length s)) (i + Z.of_nat (String.length s)));
    destruct (Z.leb_spec (Z.of_nat (String.length s)) i);
    simpl in H; try discriminate; lia.
Qed.

Lemma str_index_raises (s : string) (i : Z) (e : exn) :
  str_index s i = Raises e -> e = IndexError.
Proof.
  unfold str_index. intros H.
  destruct (_ || _)%bool; [congruence|].
  destruct (String.get _ s); congruence.
Qed.

Lemma py_int_raises (c : ascii) (e : exn) : py_int c = Raises e -> e = ValueError.
Proof. unfold py_int. destruct (_ && _)%bool; congruence. Qed.

Lemma correlation_step_returns (alice_idx bob_idx : Z) (acc acc' : Z * Z)
    (s : string) (c : Z) :
  correlation_step alice_idx bob_idx acc (s, c) = Returns acc' ->
  (exists a, str_index s alice_idx = Returns a)
  /\ (exists b, str_index s bob_idx = Returns b).
Proof.
  destruct acc as [same different]. unfold correlation_step. intros H.
  apply bind_returns in H as (a & Ha & H).
  apply bind_returns in H as (ab & _ & H).
  apply bind_returns in H as (b & Hb & H).
  split; [exists a; exact Ha|exists b; exact Hb].
Qed.

Lemma correlation_step_raises (alice_idx bob_idx : Z) (acc : Z * Z)
    (item : string * Z) (e : exn) :
  correlation_step alice_idx bob_idx acc item = Raises e ->
  e = IndexError \/ e = ValueError.
Proof.
  destruct acc as [same different], item as [s c]. unfold correlation_step. intros H.
  destruct (str_index s alice_idx) as [a|e1] eqn:Ha; simpl in H;
    [|injection H as <-; left; eapply str_index_raises; eauto].
  destruct (py_int a) as [ab|e1] eqn:Hab; simpl in H;
    [|injection H as <-; right; eapply py_int_raises; eauto].
  destruct (str_index s bob_idx) as [b|e1] eqn:Hb; simpl in H;
    [|injection H as <-; left; eapply str_index_raises; eauto].
  destruct (py_int b) as [bb|e1] eqn:Hbb; simpl in H;
    [|injection H as <-; right; eapply py_int_raises; eauto].
  destruct (ab =? bb)%Z; discriminate.
Qed.

Lemma marker_step_returns (marker_idx : Z) (acc acc' : Z * Z) (s : string) (c : Z) :
  marker_step marker_idx acc (s, c) = Returns acc' ->
  exists m, str_index s marker_idx = Returns m.
Proof.
  destruct acc as [marker_zero total]. unfold marker_step. intros H.
  apply bind_returns in H as (m & Hm & H). exists m. exact Hm.
Qed.

Lemma marker_step_raises (marker_idx : Z) (acc : Z * Z) (item : string * Z) (e : exn) :
  marker_step marker_idx acc item = Raises e ->
  e = IndexError \/ e = ValueError.
Proof.
  destruct acc as [marker_zero total], item as [s c]. unfold marker_step. intros H.
  destruct (str_index s marker_idx) as [m|e1] eqn:Hm; simpl in H;
    [|injection H as <-; left; eapply str_index_raises; eauto].
  destruct (py_int m) as [mb|e1] eqn:Hmb; simpl in H;
    [|injection H as <-; right; eapply py_int_raises; eauto].
  destruct (mb =? 0)%Z; discriminate.
Qed.

(** X1: counts whose "same" and "different" weights are equal give a
    correlation of exactly 0, whatever positive shot count is declared. *)
Theorem compute_correlation_balanced :
  forall (width : nat) (counts : Counts) (alice_idx bob_idx n_shots : Z),
    measurement_counts width counts ->
    position width alice_idx -> position width bob_idx ->
    (0 < n_shots)%Z ->
    same_weight alice_idx bob_idx counts = different_weight alice_idx bob_idx counts ->
    compute_correlation counts alice_idx bob_idx n_shots
    = Returns (Finite 0, Finite (1 / sqrt (IZR n_shots))).
Proof.
  intros width counts alice_idx bob_idx n_shots Hwf Ha Hb Hn Heq.
  rewrite (compute_correlation_returns width) by assumption.
  rewrite Heq, Z.sub_diag. unfold Rdiv at 1. rewrite Rmult_0_l. reflexivity.
Qed.

Lemma compute_correlation_balanced_witness :
  compute_correlation
    [("01"%string, 500%Z); ("10"%string, 500%Z); ("00"%string, 500%Z); ("11"%string, 500%Z)]
    0 1 2000
  = Returns (Finite 0, Finite (1 / sqrt (IZR 2000))).
Proof.
  apply (compute_correlation_balanced 2%nat).
  - repeat constructor; simpl; lia.
  - unfold position; simpl; lia.
  - unfold position; simpl; lia.
  - lia.
  - reflexivity.
Defined.

(** X2: when the two designated bits of every outcome differ and the total
    equals the declared positive shot count, the correlation is exactly -1. *)
Theorem compute_correlation_anticorrelated :
  forall (width : nat) (counts : Counts) (alice_idx bob_idx n_shots : Z),
    measurement_counts width counts ->
    position width alice_idx -> position width bob_idx ->
    Forall (fun item : string * Z =>
              bits_agree alice_idx bob_idx (fst item) = false) counts ->
    (0 < n_shots)%Z -> total_count counts = n_shots ->
    compute_correlation counts alice_idx bob_idx n_shots
    = Returns (Finite (-1), Finite (1 / sqrt (IZR n_shots))).
Proof.
  intros width counts alice_idx bob_idx n_shots Hwf Ha Hb Hall Hn Htotal.
  destruct (weight_where_all (fun s => negb (bits_agree alice_idx bob_idx s)) counts)
    as [Hd Hs].
  { eapply Forall_impl; [|exact Hall]. intros item H. simpl. rewrite H. reflexivity. }
  rewrite (weight_where_ext _ (bits_agree alice_idx bob_idx)) in Hs
    by (intros s; apply negb_involutive).
  rewrite (compute_correlation_returns width) by assumption.
  unfold same_weight, different_weight. rewrite Hs, Hd, Htotal.
  do 3 f_equal. rewrite Z.sub_0_l, opp_IZR. field.
  apply Rgt_not_eq, Rlt_gt, IZR_lt. exact Hn.
Qed.

Lemma compute_correlation_anticorrelated_witness :
  compute_correlation [("01"%string, 3%Z); ("10"%string, 5%Z)] 0 1 8
  = Returns (Finite (-1), Finite (1 / sqrt (IZR 8))).
Proof.
  apply (compute_correlation_anticorrelated 2%nat).
  - repeat constructor; simpl; lia.
  - unfold position; simpl; lia.
  - unfold position; simpl; lia.
  - repeat constructor.
  - lia.
  - reflexivity.
Defined.

(** X3: the estimators do not depend on the iteration order of the counts:
    on measurement counts, any reordering of the items gives the same
    correlation, error and marker probability. *)
Theorem estimators_ignore_item_order :
  forall (width : nat) (counts counts' : Counts) (alice_idx bob_idx marker_idx n_shots : Z),
    measurement_counts width counts ->
    Permutation counts counts' ->
    position width alice_idx -> position width bob_idx -> position width marker_idx ->
    (0 < n_shots)%Z ->
    compute_correlation counts' alice_idx bob_idx n_shots
    = compute_correlation counts alice_idx bob_idx n_shots
    /\ verify_marker_erasure counts' marker_idx = verify_marker_erasure counts marker_idx.
Proof.
  intros width counts counts' alice_idx bob_idx marker_idx n_shots Hwf Hp Ha Hb Hm Hn.
  pose proof (measurement_counts_permutation width _ _ Hp Hwf) as Hwf'.
  split.
  - rewrite !(compute_correlation_returns width) by assumption.
    unfold same_weight, different_weight.
    rewrite !(weight_where_permutation _ _ _ Hp). reflexivity.
  - rewrite !(verify_marker_erasure_returns width) by assumption.
    unfold zero_weight, total_count.
    rewrite !(weight_where_permutation _ _ _ Hp). reflexivity.
Qed.

Lemma estimators_ignore_item_order_witness :
  compute_correlation [("110"%string, 2%Z); ("001"%string, 5%Z)] 0 1 7
  = compute_correlation [("001"%string, 5%Z); ("110"%string, 2%Z)] 0 1 7
  /\ verify_marker_erasure [("110"%string, 2%Z); ("001"%string, 5%Z)] 2
     = verify_marker_erasure [("001"%string, 5%Z); ("110"%string, 2%Z)] 2.
Proof.
  apply (estimators_ignore_item_order 3%nat).
  - repeat constructor; simpl; lia.
  - apply perm_swap.
  - unfold position; simpl; lia.
  - unfold position; simpl; lia.
  - unfold position; simpl; lia.
  - lia.
Defined.

(** X4: the correlation is symmetric in the two designated positions. *)
Theorem compute_correlation_symmetric :
  forall (width : nat) (counts : Counts) (alice_idx bob_idx n_shots : Z),
    measurement_counts width counts ->
    position width alice_idx -> position width bob_idx ->
    (0 < n_shots)%Z ->
    compute_correlation counts bob_idx alice_idx n_shots
    = compute_correlation counts alice_idx bob_idx n_shots.
Proof.
  intros width counts alice_idx bob_idx n_shots Hwf Ha Hb Hn.
  rewrite !(compute_correlation_returns width) by assumption.
  unfold same_weight, different_weight.
  rewrite (weight_where_ext (bits_agree bob_idx alice_idx) (bits_agree alice_idx bob_idx))
    by (intros s; apply bits_agree_sym).
  rewrite (weight_where_ext (fun s => negb (bits_agree bob_idx alice_idx s))
             (fun s => negb (bits_agree alice_idx bob_idx s)))
    by (intros s; f_equal; apply bits_agree_sym).
  reflexivity.
Qed.

Lemma compute_correlation_symmetric_witness :
  compute_correlation [("011"%string, 4%Z); ("101"%string, 1%Z)] 2 0 5
  = compute_correlation [("011"%string, 4%Z); ("101"%string, 1%Z)] 0 2 5.
Proof.
  apply (compute_correlation_symmetric 3%nat).
  - repeat constructor; simpl; lia.
  - unfold position; simpl; lia.
  - unfold position; simpl; lia.
  - lia.
Defined.

(** X5: on measurement counts, a declared shot count of zero raises
    ZeroDivisionError, and a negative one returns the quotient together
    with NaN as the error. *)
Theorem compute_correlation_nonpositive_shots :
  forall (width : nat) (counts : Counts) (alice_idx bob_idx n_shots : Z),
    measurement_counts width counts ->
    position width alice_idx -> position width bob_idx ->
    (n_shots <= 0)%Z ->
    compute_correlation counts alice_idx bob_idx n_shots
    = if (n_shots =? 0)%Z
      then Raises ZeroDivisionError
      else Returns (Finite (IZR (same_weight alice_idx bob_idx counts
                                 - different_weight alice_idx bob_idx counts)
                            / IZR n_shots),
                    NaN).
Proof.
  intros width counts alice_idx bob_idx n_shots Hwf Ha Hb Hn.
  unfold compute_correlation.
  rewrite (correlation_loop width _ _ _ Hwf Ha Hb). cbn [bind]. rewrite !Z.add_0_l.
  unfold int_truediv.
  destruct (Z.eqb_spec n_shots 0) as [?|Hne]; [reflexivity|]. cbn [bind].
  unfold fsqrt, of_int.
  rewrite (proj2 (Rltb_iff (IZR n_shots) 0)) by (apply IZR_lt; lia).
  reflexivity.
Qed.

Lemma compute_correlation_nonpositive_shots_witness :
  compute_correlation [("00"%string, 5%Z); ("01"%string, 1%Z)] 0 1 (-4)
  = if (-4 =? 0)%Z
    then Raises ZeroDivisionError
    else Returns (Finite (IZR (same_weight 0 1 [("00"%string, 5%Z); ("01"%string, 1%Z)]
                               - different_weight 0 1
                                   [("00"%string, 5%Z); ("01"%string, 1%Z)])
                          / IZR (-4)),
                  NaN).
Proof.
  apply (compute_correlation_nonpositive_shots 2%nat).
  - repeat constructor; simpl; lia.
  - unfold position; simpl; lia.
  - unfold position; simpl; lia.
  - lia.
Defined.

(** X6: if any outcome string is too short for a designated position,
    neither estimator returns: the call raises IndexError or ValueError,
    whatever the other items and the declared shot count are. *)
Theorem unreadable_outcome_raises :
  (forall (counts : Counts) (alice_idx bob_idx n_shots : Z) (s : string) (c : Z),
      In (s, c) counts ->
      (Z.of_nat (String.length s) <= alice_idx
       \/ Z.of_nat (String.length s) <= bob_idx)%Z ->
      compute_correlation counts alice_idx bob_idx n_shots = Raises IndexError
      \/ compute_correlation counts alice_idx bob_idx n_shots = Raises ValueError)
  /\ (forall (counts : Counts) (marker_idx : Z) (s : string) (c : Z),
      In (s, c) counts ->
      (Z.of_nat (String.length s) <= marker_idx)%Z ->
      verify_marker_erasure counts marker_idx = Raises IndexError
      \/ verify_marker_erasure counts marker_idx = Raises ValueError).
Proof.
  split.
  - intros counts alice_idx bob_idx n_shots s c Hin Hshort.
    unfold compute_correlation.
    destruct (for_each (correlation_step alice_idx bob_idx) counts (0%Z, 0%Z))
      as [acc|e] eqn:Hloop.
    + exfalso.
      destruct (for_each_returns_each _ _ _ _ Hloop _ Hin) as (s1 & s2 & Hstep).
      apply correlation_step_returns in Hstep as [[a Ha] [b Hb]].
      apply str_index_returns_range in Ha, Hb. lia.
    + destruct (for_each_raises_in_body _ _ _ _ Hloop) as (s1 & x & _ & Hstep).
      apply correlation_step_raises in Hstep as [-> | ->]; simpl; auto.
  - intros counts marker_idx s c Hin Hshort.
    unfold verify_marker_erasure.
    destruct (for_each (marker_step marker_idx) counts (0%Z, 0%Z))
      as [acc|e] eqn:Hloop.
    + exfalso.
      destruct (for_each_returns_each _ _ _ _ Hloop _ Hin) as (s1 & s2 & Hstep).
      apply marker_step_returns in Hstep as [m Hm].
      apply str_index_returns_range in Hm. lia.
    + destruct (for_each_raises_in_body _ _ _ _ Hloop) as (s1 & x & _ & Hstep).
      apply marker_step_raises in Hstep as [-> | ->]; simpl; auto.
Qed.

Lemma unreadable_outcome_raises_witness :
  verify_marker_erasure [("000"%string, 7%Z); ("01"%string, 1%Z)] 2 = Raises IndexError
  \/ verify_marker_erasure [("000"%string, 7%Z); ("01"%string, 1%Z)] 2 = Raises ValueError.
Proof.
  apply (proj2 unreadable_outcome_raises _ 2%Z "01"%string 1%Z).
  - simpl. auto.
  - simpl. lia.
Defined.

(** X7: with a positive total, the marker probability is exactly 1 when
    every outcome reads 0 at the marker position and exactly 0 when none
    does. *)
Theorem verify_marker_erasure_extremes :
  forall (width : nat) (counts : Counts) (marker_idx : Z),
    measurement_counts width counts -> position width marker_idx ->
    (0 < total_count counts)%Z ->
    (Forall (fun item : string * Z => reads_zero marker_idx (fst item) = true) counts ->
     verify_marker_erasure counts marker_idx = Returns (Finite 1))
    /\ (Forall (fun item : string * Z => reads_zero marker_idx (fst item) = false) counts ->
        verify_marker_erasure counts marker_idx = Returns (Finite 0)).
Proof.
  intros width counts marker_idx Hwf Hm Hpos.
  rewrite (verify_marker_erasure_returns width _ _ Hwf Hm).
  rewrite (proj2 (Z.ltb_lt 0 (total_count counts)) Hpos).
  assert (Hne : IZR (total_count counts) <> 0%R)
    by (apply Rgt_not_eq, Rlt_gt, IZR_lt; exact Hpos).
  unfold zero_weight. split; intros Hall.
  - destruct (weight_where_all (reads_zero marker_idx) counts Hall) as [-> _].
    do 2 f_equal. field. exact Hne.
  - destruct (weight_where_all (fun s => negb (reads_zero marker_idx s)) counts)
      as [_ Hz].
    { eapply Forall_impl; [|exact Hall]. intros item H. simpl. rewrite H. reflexivity. }
    rewrite (weight_where_ext _ (reads_zero marker_idx)) in Hz
      by (intros s; apply negb_involutive).
    rewrite Hz. do 2 f_equal. unfold Rdiv. apply Rmult_0_l.
Qed.

Lemma verify_marker_erasure_extremes_witness :
  verify_marker_erasure [("000"%string, 3%Z); ("110"%string, 1%Z)] 2
  = Returns (Finite 1).
Proof.
  apply (proj1 (verify_marker_erasure_extremes 3%nat
                  [("000"%string, 3%Z); ("110"%string, 1%Z)] 2
                  ltac:(repeat constructor; simpl; lia)
                  ltac:(unfold position; simpl; lia)
                  ltac:(reflexivity))).
  repeat constructor.
Defined.

End EstimatorExtras.

(** ** Further properties of the circuit builder *)

Module CircuitExtras.
Import Py Experiment Spec AnalysisProofs.

Lemma fneg_involutive (x : float64) : fneg (fneg x) = x.
Proof. destruct x; simpl; try reflexivity. f_equal. lra. Qed.

Lemma fdiv_fneg_two (x : float64) :
  fdiv (fneg x) (of_int 2) = fneg (fdiv x (of_int 2)).
Proof.
  unfold of_int. destruct x as [a| | |]; simpl; try reflexivity.
  - rewrite (proj2 (Reqb_false_iff 2 0)) by lra. simpl. f_equal. lra.
  - rewrite (proj2 (Rltb_false_iff 2 0)) by lra. reflexivity.
  - rewrite (proj2 (Rltb_false_iff 2 0)) by lra. reflexivity.
Qed.

(** X8: [add_measurements] appends one measurement per listed qubit, in
    the order given, after the instructions already there; the width of
    the outcomes grows by the number of listed qubits. *)
Theorem add_measurements_appends :
  forall (circuit : Circuit) (qubits : list Z),
    add_measurements circuit qubits = circuit ++ map measure qubits
    /\ measured_width (add_measurements circuit qubits)
       = (measured_width circuit + List.length qubits)%nat.
Proof.
  intros circuit qubits.
  assert (Happ : add_measurements circuit qubits = circuit ++ map measure qubits).
  { unfold add_measurements. revert circuit.
    induction qubits as [|q qubits IH]; intros circuit; simpl.
    - now rewrite app_nil_r.
    - rewrite IH, <- app_assoc. reflexivity. }
  split; [exact Happ|].
  rewrite Happ. unfold measured_width. rewrite filter_app, length_app. f_equal.
  clear Happ. induction qubits as [|q qubits IH]; simpl; [reflexivity|].
  f_equal. exact IH.
Qed.

(** X9: the erasure step is the exact inverse of the coupling step: the
    decomposition at strength -theta is the decomposition at strength theta
    read backwards with every gate inverted, so the forward+reverse circuit
    is the Bell pair, the coupling, and the coupling undone gate by gate. *)
Theorem reversal_is_gatewise_inverse :
  forall (alice bob marker : Z) (theta : float64),
    decomposition alice marker (fneg theta)
    = map inverse_gate (rev (decomposition alice marker theta))
    /\ circuit_with_reversal alice bob marker theta
       = circuit_standard_bell alice bob
         ++ decomposition alice marker theta
         ++ map inverse_gate (rev (decomposition alice marker theta)).
Proof.
  intros alice bob marker theta.
  assert (Hinv : decomposition alice marker (fneg theta)
                 = map inverse_gate (rev (decomposition alice marker theta))).
  { unfold decomposition. cbn [rev app map inverse_gate].
    rewrite !fdiv_fneg_two. reflexivity. }
  split; [exact Hinv|].
  rewrite <- Hinv.
  unfold circuit_with_reversal, circuit_standard_bell, controlled_rotation_cnot,
    create_bell_state, decomposition.
  simpl. reflexivity.
Qed.

(** X10: after the Bell preparation no gate acts on Bob's qubit: the
    forward-only and the forward+reverse circuit both start with H on Alice
    and CNOT from Alice to Bob, every later instruction acts on Alice's and
    the marker's qubits only, and so, Bob's qubit being neither of them,
    no later instruction acts on it. *)
Theorem coupling_never_touches_bob :
  forall (alice bob marker : Z) (theta : float64),
    bob <> alice -> bob <> marker ->
    firstn 2 (circuit_no_reversal alice bob marker theta) = [h alice; cnot alice bob]
    /\ firstn 2 (circuit_with_reversal alice bob marker theta)
       = [h alice; cnot alice bob]
    /\ Forall (fun i => incl (qubits_of i) [alice; marker] /\ ~ In bob (qubits_of i))
         (skipn 2 (circuit_no_reversal alice bob marker theta))
    /\ Forall (fun i => incl (qubits_of i) [alice; marker] /\ ~ In bob (qubits_of i))
         (skipn 2 (circuit_with_reversal alice bob marker theta)).
Proof.
  intros alice bob marker theta Hba Hbm.
  unfold circuit_no_reversal, circuit_with_reversal, controlled_rotation_cnot,
    create_bell_state.
  cbn [app firstn skipn].
  assert (Hry : forall angle,
             incl (qubits_of (ry marker angle)) [alice; marker]
             /\ ~ In bob (qubits_of (ry marker angle))).
  { intros angle. split.
    - intros q [<-|[]]. right. left. reflexivity.
    - intros [H|[]]. apply Hbm. symmetry. exact H. }
  assert (Hcnot : incl (qubits_of (cnot alice marker)) [alice; marker]
                  /\ ~ In bob (qubits_of (cnot alice marker))).
  { split.
    - intros q [<-|[<-|[]]]; [left|right; left]; reflexivity.
    - intros [H|[H|[]]]; [apply Hba|apply Hbm]; symmetry; exact H. }
  repeat split; try reflexivity;
    repeat (constructor; [first [apply Hry|exact Hcnot]|]); constructor.
Qed.

Lemma coupling_never_touches_bob_witness :
  firstn 2 (circuit_no_reversal 0 1 2 (deg2rad 90)) = [h 0; cnot 0 1]
  /\ firstn 2 (circuit_with_reversal 0 1 2 (deg2rad 90)) = [h 0; cnot 0 1]
  /\ Forall (fun i => incl (qubits_of i) [0%Z; 2%Z] /\ ~ In 1%Z (qubits_of i))
       (skipn 2 (circuit_no_reversal 0 1 2 (deg2rad 90)))
  /\ Forall (fun i => incl (qubits_of i) [0%Z; 2%Z] /\ ~ In 1%Z (qubits_of i))
       (skipn 2 (circuit_with_reversal 0 1 2 (deg2rad 90))).
Proof.
  apply (coupling_never_touches_bob 0 1 2 (deg2rad 90)).
  - lia.
  - lia.
Defined.

End CircuitExtras.

(** ** Further properties of the run driver *)

Module DriverExtras.
Import Py Experiment Analysis Spec EstimatorProofs AnalysisProofs DriverProofs.
Open Scope py_scope.

(** Whenever [compute_correlation] returns for the configured shot count,
    the correlation is a number and the error is 1/sqrt(2000). *)
Lemma compute_correlation_configured (counts : Counts) (alice_idx bob_idx : Z)
    (C error : float64) :
  compute_correlation counts alice_idx bob_idx N_SHOTS = Returns (C, error) ->
  is_finite C /\ error = Finite (1 / sqrt 2000).
Proof.
  unfold compute_correlation. intros H.
  apply bind_returns in H as ([same different] & _ & H).
  apply bind_returns in H as (C' & HC & H).
  injection H as <- <-. split.
  - unfold int_truediv in HC. destruct (N_SHOTS =? 0)%Z; [discriminate|].
    injection HC as <-. eexists. reflexivity.
  - unfold N_SHOTS, of_int, fsqrt.
    rewrite (proj2 (Rltb_false_iff 2000 0)) by lra.
    apply fdiv_finite.
    pose proof sqrt_2000_bounds. lra.
Qed.

(** On counts that a well-behaved device returns, the correlation lies in
    [-1, 1]. *)
Lemma compute_correlation_in_range (width : nat) (counts : Counts)
    (alice_idx bob_idx n_shots : Z) (C error : float64) :
  measurement_counts width counts ->
  position width alice_idx -> position width bob_idx ->
  (0 < n_shots)%Z -> total_count counts = n_shots ->
  compute_correlation counts alice_idx bob_idx n_shots = Returns (C, error) ->
  in_range (-1) 1 C.
Proof.
  intros Hwf Ha Hb Hn Htotal H.
  rewrite (compute_correlation_returns width) in H by assumption.
  injection H as <- _.
  pose proof (weight_where_nonneg width (bits_agree alice_idx bob_idx) counts Hwf) as Hs.
  pose proof (weight_where_nonneg width
                (fun s => negb (bits_agree alice_idx bob_idx s)) counts Hwf) as Hd.
  pose proof (weight_where_split (bits_agree alice_idx bob_idx) counts) as Hsplit.
  fold (same_weight alice_idx bob_idx counts) in Hs, Hsplit.
  fold (different_weight alice_idx bob_idx counts) in Hd, Hsplit.
  eexists. split; [reflexivity|].
  rewrite minus_IZR, <- Htotal, <- Hsplit, plus_IZR.
  apply ratio_in_unit_ball.
  - apply IZR_le. exact Hs.
  - apply IZR_le. exact Hd.
  - rewrite <- plus_IZR. apply IZR_lt. lia.
Qed.

Lemma verify_marker_erasure_in_range (width : nat) (counts : Counts)
    (marker_idx : Z) (p : float64) :
  measurement_counts width counts -> position width marker_idx ->
  verify_marker_erasure counts marker_idx = Returns p ->
  in_range 0 1 p.
Proof.
  intros Hwf Hm H.
  rewrite (verify_marker_erasure_returns width) in H by assumption.
  pose proof (weight_where_nonneg width (reads_zero marker_idx) counts Hwf) as Hz.
  pose proof (weight_where_nonneg width
                (fun s => negb (reads_zero marker_idx s)) counts Hwf) as Hnz.
  pose proof (weight_where_split (reads_zero marker_idx) counts) as Hsplit.
  fold (zero_weight marker_idx counts) in Hz, Hsplit.
  destruct (Z.ltb_spec 0 (total_count counts)) as [Hpos|_]; injection H as <-.
  - eexists. split; [reflexivity|]. apply part_in_unit_interval.
    + split; apply IZR_le; lia.
    + apply IZR_lt. exact Hpos.
  - exists 0%R. split; [reflexivity|lra].
Qed.

Lemma Forall_snoc {A : Type} (P : A -> Prop) (l : list A) (a : A) :
  Forall P l -> P a -> Forall P (l ++ [a]).
Proof. intros Hl Ha. apply Forall_app. split; [exact Hl|constructor; auto]. Qed.

Lemma Forall_nth_error {A : Type} (P : A -> Prop) (l : list A) (i : nat) (a : A) :
  Forall P l -> nth_error l i = Some a -> P a.
Proof.
  intros Hl Hi. apply nth_error_In in Hi. rewrite Forall_forall in Hl. auto.
Qed.

Section Driver.

Variable Device : Type.
Variable AwsDevice : string -> Device.
Variable Devices_Amazon_SV1 : string.
Variable device_run : Device -> Circuit -> Z -> outcome (Counts * Device).
Variable now_isoformat : string.

(** What one successful pass of the loop body did: three submissions in
    order, each estimated, and one element stored in every sequence. *)
Lemma run_angle_shape (results results' : Results.t) (device device' : Device)
    (theta_deg : Z) :
  run_angle device_run (results, device) theta_deg = Returns (results', device') ->
  exists counts1 device1 C_std C_std_err counts2 device2 C_no_rev C_no_rev_err
         counts3 C_rev C_rev_err marker_erased,
    device_run device
      (add_measurements (circuit_standard_bell ALICE_QUBIT BOB_QUBIT)
         [ALICE_QUBIT; BOB_QUBIT]) N_SHOTS = Returns (counts1, device1)
    /\ compute_correlation counts1 ALICE_QUBIT BOB_QUBIT N_SHOTS
       = Returns (C_std, C_std_err)
    /\ device_run device1
         (add_measurements
            (circuit_no_reversal ALICE_QUBIT BOB_QUBIT MARKER_QUBIT (deg2rad theta_deg))
            [ALICE_QUBIT; BOB_QUBIT; MARKER_QUBIT]) N_SHOTS = Returns (counts2, device2)
    /\ compute_correlation counts2 ALICE_QUBIT BOB_QUBIT N_SHOTS
       = Returns (C_no_rev, C_no_rev_err)
    /\ device_run device2
         (add_measurements
            (circuit_with_reversal ALICE_QUBIT BOB_QUBIT MARKER_QUBIT (deg2rad theta_deg))
            [ALICE_QUBIT; BOB_QUBIT; MARKER_QUBIT]) N_SHOTS = Returns (counts3, device')
    /\ compute_correlation counts3 ALICE_QUBIT BOB_QUBIT N_SHOTS
       = Returns (C_rev, C_rev_err)
    /\ verify_marker_erasure counts3 MARKER_QUBIT = Returns marker_erased
    /\ results'
       = Results.Build (Results.metadata results)
           (Data.Build
              (Data.theta (Results.data results) ++ [theta_deg])
              (Data.C_standard (Results.data results) ++ [C_std])
              (Data.C_standard_err (Results.data results) ++ [C_std_err])
              (Data.C_no_reversal (Results.data results) ++ [C_no_rev])
              (Data.C_no_reversal_err (Results.data results) ++ [C_no_rev_err])
              (Data.C_with_reversal (Results.data results) ++ [C_rev])
              (Data.C_with_reversal_err (Results.data results) ++ [C_rev_err]))
           (Results.raw_counts results
            ++ [RawCounts.Build theta_deg
                  (Entry.Build counts1 C_std C_std_err None)
                  (Entry.Build counts2 C_no_rev C_no_rev_err None)
                  (Entry.Build counts3 C_rev C_rev_err (Some marker_erased))]).
Proof.
  intros H. unfold run_angle in H.
  apply bind_returns in H as ([counts1 device1] & H1 & H).
  apply bind_returns in H as ([C_std C_std_err] & H2 & H).
  apply bind_returns in H as ([counts2 device2] & H3 & H).
  apply bind_returns in H as ([C_no_rev C_no_rev_err] & H4 & H).
  apply bind_returns in H as ([counts3 device3] & H5 & H).
  apply bind_returns in H as ([C_rev C_rev_err] & H6 & H).
  apply bind_returns in H as (marker_erased & H7 & H).
  injection H as <- <-.
  exists counts1, device1, C_std, C_std_err, counts2, device2, C_no_rev, C_no_rev_err,
    counts3, C_rev, C_rev_err, marker_erased.
  repeat split; assumption.
Qed.

(** A property of the results record that every pass of the loop body
    keeps is kept by the loop. *)
Lemma run_angles_invariant (I : Results.t -> Prop) :
  (forall results device theta_deg results' device',
      I results ->
      run_angle device_run (results, device) theta_deg = Returns (results', device') ->
      I results') ->
  forall angles state state',
    I (fst state) ->
    run_angles device_run angles state = Returns state' ->
    I (fst state').
Proof.
  intros Hstep. unfold run_angles.
  induction angles as [|theta_deg angles IH]; intros state state' Hstate Hrun;
    simpl in Hrun.
  - injection Hrun as <-. exact Hstate.
  - apply bind_returns in Hrun as ([r1 d1] & Hone & Hrun).
    destruct state as [r d]. apply (IH (r1, d1) state'); [|exact Hrun].
    apply (Hstep r d theta_deg r1 d1 Hstate Hone).
Qed.

(** Such a property, if it holds of the initial record, holds of the
    record of a completed run. *)
Lemma run_experiment_invariant (I : Results.t -> Prop) :
  I (initial_results now_isoformat) ->
  (forall results device theta_deg results' device',
      I results ->
      run_angle device_run (results, device) theta_deg = Returns (results', device') ->
      I results') ->
  forall use_simulator results,
    run_experiment AwsDevice Devices_Amazon_SV1 device_run now_isoformat use_simulator
    = Returns results ->
    I results.
Proof.
  intros Hinit Hstep use_simulator results H.
  unfold run_experiment in H.
  apply bind_returns in H as ([results' device'] & Hrun & H). injection H as <-.
  apply (run_angles_invariant I Hstep THETA_VALUES
           (initial_results now_isoformat,
            select_device AwsDevice Devices_Amazon_SV1 use_simulator)
           (results', device') Hinit Hrun).
Qed.

Lemma run_angle_keeps_metadata (results results' : Results.t)
    (device device' : Device) (theta_deg : Z) :
  run_angle device_run (results, device) theta_deg = Returns (results', device') ->
  Results.metadata results' = Results.metadata results.
Proof.
  intros H. apply run_angle_shape in H
    as (c1 & d1 & C1 & E1 & c2 & d2 & C2 & E2 & c3 & C3 & E3 & m & _ & _ & _ & _ & _ & _ & _ & ->).
  reflexivity.
Qed.

Lemma run_angle_keeps_raw_matching (results results' : Results.t)
    (device device' : Device) (theta_deg : Z) :
  raw_matches_data results ->
  run_angle device_run (results, device) theta_deg = Returns (results', device') ->
  raw_matches_data results'.
Proof.
  intros (H1 & H2 & H3 & H4 & H5 & H6 & H7 & H8) H.
  apply run_angle_shape in H
    as (c1 & d1 & C1 & E1 & c2 & d2 & C2 & E2 & c3 & C3 & E3 & m & _ & _ & _ & _ & _ & _ & _ & ->).
  unfold raw_matches_data.
  cbn [Results.data Results.raw_counts Data.theta Data.C_standard Data.C_standard_err
       Data.C_no_reversal Data.C_no_reversal_err Data.C_with_reversal
       Data.C_with_reversal_err].
  rewrite !map_app. cbn [map RawCounts.theta RawCounts.standard RawCounts.no_reversal
    RawCounts.with_reversal Entry.C Entry.C_err].
  rewrite H1, H2, H3, H4, H5, H6, H7.
  repeat split; try reflexivity.
  apply Forall_snoc; [exact H8|]. cbn. repeat split. discriminate.
Qed.

Lemma run_angle_keeps_estimates (results results' : Results.t)
    (device device' : Device) (theta_deg : Z) :
  every_estimate is_finite (eq (Finite (1 / sqrt 2000))) results ->
  run_angle device_run (results, device) theta_deg = Returns (results', device') ->
  every_estimate is_finite (eq (Finite (1 / sqrt 2000))) results'.
Proof.
  intros (H1 & H2 & H3 & H4 & H5 & H6) H.
  apply run_angle_shape in H
    as (c1 & d1 & C1 & E1 & c2 & d2 & C2 & E2 & c3 & C3 & E3 & m
        & _ & Hc1 & _ & Hc2 & _ & Hc3 & _ & ->).
  apply compute_correlation_configured in Hc1 as [Hf1 ->].
  apply compute_correlation_configured in Hc2 as [Hf2 ->].
  apply compute_correlation_configured in Hc3 as [Hf3 ->].
  unfold every_estimate.
  cbn [Results.data Data.C_standard Data.C_standard_err Data.C_no_reversal
       Data.C_no_reversal_err Data.C_with_reversal Data.C_with_reversal_err].
  repeat split; apply Forall_snoc; auto.
Qed.

Lemma run_angle_keeps_ranges (results results' : Results.t)
    (device device' : Device) (theta_deg : Z) :
  answers_every_submission device_run ->
  every_estimate (in_range (-1) 1) (fun _ => True) results
  /\ marker_probabilities_valid results ->
  run_angle device_run (results, device) theta_deg = Returns (results', device') ->
  every_estimate (in_range (-1) 1) (fun _ => True) results'
  /\ marker_probabilities_valid results'.
Proof.
  intros Hdev [(H1 & H2 & H3 & H4 & H5 & H6) Hm] H.
  apply run_angle_shape in H
    as (c1 & d1 & C1 & E1 & c2 & d2 & C2 & E2 & c3 & C3 & E3 & m
        & Hr1 & Hc1 & Hr2 & Hc2 & Hr3 & Hc3 & Hv & ->).
  assert (Hshots : (0 <= N_SHOTS)%Z) by (unfold N_SHOTS; lia).
  assert (Hpos : (0 < N_SHOTS)%Z) by (unfold N_SHOTS; lia).
  assert (Ha2 : position 2 ALICE_QUBIT) by (unfold position, ALICE_QUBIT; simpl; lia).
  assert (Hb2 : position 2 BOB_QUBIT) by (unfold position, BOB_QUBIT; simpl; lia).
  assert (Ha3 : position 3 ALICE_QUBIT) by (unfold position, ALICE_QUBIT; simpl; lia).
  assert (Hb3 : position 3 BOB_QUBIT) by (unfold position, BOB_QUBIT; simpl; lia).
  assert (Hm3 : position 3 MARKER_QUBIT) by (unfold position, MARKER_QUBIT; simpl; lia).
  destruct (Hdev device
              (add_measurements (circuit_standard_bell ALICE_QUBIT BOB_QUBIT)
                 [ALICE_QUBIT; BOB_QUBIT]) N_SHOTS Hshots)
    as (c1' & d1' & Hr1' & Hwf1 & Ht1).
  rewrite Hr1' in Hr1. injection Hr1 as -> ->.
  change (measured_width _) with 2%nat in Hwf1.
  destruct (Hdev d1
              (add_measurements
                 (circuit_no_reversal ALICE_QUBIT BOB_QUBIT MARKER_QUBIT
                    (deg2rad theta_deg))
                 [ALICE_QUBIT; BOB_QUBIT; MARKER_QUBIT]) N_SHOTS Hshots)
    as (c2' & d2' & Hr2' & Hwf2 & Ht2).
  rewrite Hr2' in Hr2. injection Hr2 as -> ->.
  change (measured_width _) with 3%nat in Hwf2.
  destruct (Hdev d2
              (add_measurements
                 (circuit_with_reversal ALICE_QUBIT BOB_QUBIT MARKER_QUBIT
                    (deg2rad theta_deg))
                 [ALICE_QUBIT; BOB_QUBIT; MARKER_QUBIT]) N_SHOTS Hshots)
    as (c3' & d3' & Hr3' & Hwf3 & Ht3).
  rewrite Hr3' in Hr3. injection Hr3 as -> ->.
  change (measured_width _) with 3%nat in Hwf3.
  pose proof (compute_correlation_in_range 2 _ _ _ _ _ _ Hwf1 Ha2 Hb2 Hpos Ht1 Hc1).
  pose proof (compute_correlation_in_range 3 _ _ _ _ _ _ Hwf2 Ha3 Hb3 Hpos Ht2 Hc2).
  pose proof (compute_correlation_in_range 3 _ _ _ _ _ _ Hwf3 Ha3 Hb3 Hpos Ht3 Hc3).
  pose proof (verify_marker_erasure_in_range 3 _ _ _ Hwf3 Hm3 Hv).
  unfold every_estimate, marker_probabilities_valid.
  cbn [Results.data Results.raw_counts Data.C_standard Data.C_standard_err
       Data.C_no_reversal Data.C_no_reversal_err Data.C_with_reversal
       Data.C_with_reversal_err].
  repeat split; try (apply Forall_snoc; auto).
  cbn. eauto.
Qed.

(** X11: a failure is fatal to the whole run: if the angles before
    [theta_deg] were processed and the pass for [theta_deg] raises, whether
    in a device submission or in an estimator, [run_experiment] raises the
    same exception and no record is returned. *)
Theorem failed_pass_aborts_run :
  forall (use_simulator : bool) (processed rest : list Z) (theta_deg : Z)
         (state : Results.t * Device) (e : exn),
    THETA_VALUES = processed ++ theta_deg :: rest ->
    run_angles device_run processed
      (initial_results now_isoformat,
       select_device AwsDevice Devices_Amazon_SV1 use_simulator) = Returns state ->
    run_angle device_run state theta_deg = Raises e ->
    run_experiment AwsDevice Devices_Amazon_SV1 device_run now_isoformat use_simulator
    = Raises e.
Proof.
  intros use_simulator processed rest theta_deg state e Hsplit Hrun Hfail.
  unfold run_experiment. rewrite Hsplit.
  unfold run_angles in *. rewrite for_each_app, Hrun.
  cbn [bind for_each]. rewrite Hfail. reflexivity.
Qed.

(** X12: the metadata of a produced record is fixed by the module
    constants and the start time; in particular the recorded device is
    DEVICE_ARN also when the simulator was used. *)
Theorem produced_metadata_is_constant :
  forall (use_simulator : bool) (results : Results.t),
    run_experiment AwsDevice Devices_Amazon_SV1 device_run now_isoformat use_simulator
    = Returns results ->
    Results.metadata results
    = Metadata.Build DEVICE_ARN now_isoformat THETA_VALUES N_SHOTS.
Proof.
  intros use_simulator results H.
  apply (run_experiment_invariant
           (fun r => Results.metadata r
                     = Metadata.Build DEVICE_ARN now_isoformat THETA_VALUES N_SHOTS))
    with (use_simulator := use_simulator); [reflexivity| |exact H].
  intros r d theta_deg r' d' Hr Hstep.
  rewrite (run_angle_keeps_metadata _ _ _ _ _ Hstep). exact Hr.
Qed.

(** X13: in a produced record [raw_counts] and [data] agree entry by
    entry: the same angle, the same correlation and error for each of the
    three conditions, and a marker probability stored for the condition with
    reversal and for no other. *)
Theorem produced_raw_counts_match_data :
  forall (use_simulator : bool) (results : Results.t),
    run_experiment AwsDevice Devices_Amazon_SV1 device_run now_isoformat use_simulator
    = Returns results ->
    raw_matches_data results.
Proof.
  intros use_simulator results H.
  apply (run_experiment_invariant raw_matches_data)
    with (use_simulator := use_simulator); [| |exact H].
  - unfold raw_matches_data. simpl. repeat split. constructor.
  - intros r d theta_deg r' d' Hr Hstep.
    apply (run_angle_keeps_raw_matching _ _ _ _ _ Hr Hstep).
Qed.

(** X14: whatever the device returns, every error stored in a produced
    record is 1/sqrt(2000) and every stored correlation is a number; so on
    the reloaded record no gap test divides by zero: both analysis
    operations return a significance that is a non-negative number. *)
Theorem produced_record_has_finite_significance :
  forall (use_simulator : bool) (results : Results.t),
    run_experiment AwsDevice Devices_Amazon_SV1 device_run now_isoformat use_simulator
    = Returns results ->
    every_estimate is_finite (eq (Finite (1 / sqrt 2000))) results
    /\ (forall norm_cdf : float64 -> float64,
           exists r sigma,
             analyze_restoration_failure norm_cdf (reload results) = Returns r
             /\ Restoration.significance_sigma r = Finite sigma /\ (0 <= sigma)%R)
    /\ (exists c sigma,
           test_erasure_vs_no_erasure (reload results) = Returns c
           /\ Comparison.significance_sigma c = Finite sigma /\ (0 <= sigma)%R).
Proof.
  intros use_simulator results H.
  assert (Hest : every_estimate is_finite (eq (Finite (1 / sqrt 2000))) results).
  { apply (run_experiment_invariant
             (every_estimate is_finite (eq (Finite (1 / sqrt 2000)))))
      with (use_simulator := use_simulator); [| |exact H].
    - unfold every_estimate. simpl. repeat split; constructor.
    - intros r d theta_deg r' d' Hr Hstep.
      apply (run_angle_keeps_estimates _ _ _ _ _ Hr Hstep). }
  split; [exact Hest|].
  destruct Hest as (F1 & F2 & F3 & F4 & F5 & F6).
  destruct (@run_experiment_aligned Device AwsDevice Devices_Amazon_SV1 device_run
              now_isoformat use_simulator results H)
    as (Htheta & _ & H2 & H3 & H4 & H5 & H6 & H7 & _).
  assert (Hidx : find_idx_90 (DataDict.theta (Document.data (reload results)))
                 = Returns 3%nat).
  { unfold reload. cbn [Document.data DataDict.theta].
    rewrite Htheta, find_idx_90_of_int. reflexivity. }
  assert (Hlt : (3 < List.length THETA_VALUES)%nat) by (simpl; lia).
  destruct (nth_error_of_length _ _ 3 H2 Hlt) as [C_std E2].
  destruct (nth_error_of_length _ _ 3 H3 Hlt) as [err_std E3].
  destruct (nth_error_of_length _ _ 3 H4 Hlt) as [C_no E4].
  destruct (nth_error_of_length _ _ 3 H5 Hlt) as [err_no E5].
  destruct (nth_error_of_length _ _ 3 H6 Hlt) as [C_rev E6].
  destruct (nth_error_of_length _ _ 3 H7 Hlt) as [err_rev E7].
  destruct (Forall_nth_error _ _ _ _ F1 E2) as [a ->].
  destruct (Forall_nth_error _ _ _ _ F3 E4) as [b ->].
  destruct (Forall_nth_error _ _ _ _ F5 E6) as [c ->].
  pose proof (Forall_nth_error _ _ _ _ F2 E3) as <-.
  pose proof (Forall_nth_error _ _ _ _ F4 E5) as <-.
  pose proof (Forall_nth_error _ _ _ _ F6 E7) as <-.
  pose proof sqrt_2000_bounds as [Hlo Hhi].
  assert (He : (0 < 1 / sqrt 2000)%R)
    by (unfold Rdiv; rewrite Rmult_1_l; apply Rinv_0_lt_compat; lra).
  assert (Hcomb : (0 < sqrt (1 / sqrt 2000 * (1 / sqrt 2000)
                             + 1 / sqrt 2000 * (1 / sqrt 2000)))%R)
    by (apply sqrt_lt_R0; nra).
  split.
  - intros norm_cdf. eexists. eexists. split; [|split].
    + apply (analyze_restoration_failure_reads norm_cdf (reload results) 3
               (Finite a) (Finite c) (Finite (1 / sqrt 2000)) (Finite (1 / sqrt 2000))
               Hidx); assumption.
    + cbn [Restoration.significance_sigma]. rewrite combined_error_finite.
      cbn [fsub fneg fadd fabs]. apply fdiv_finite. lra.
    + apply Rmult_le_pos; [apply Rabs_pos|].
      apply Rlt_le, Rinv_0_lt_compat. exact Hcomb.
  - eexists. eexists. split; [|split].
    + apply (test_erasure_vs_no_erasure_reads (reload results) 3
               (Finite b) (Finite c) (Finite (1 / sqrt 2000)) (Finite (1 / sqrt 2000))
               Hidx); assumption.
    + cbn [Comparison.significance_sigma]. rewrite combined_error_finite.
      cbn [fsub fneg fadd fabs]. apply fdiv_finite. lra.
    + apply Rmult_le_pos; [apply Rabs_pos|].
      apply Rlt_le, Rinv_0_lt_compat. exact Hcomb.
Qed.

(** X15: when the device answers every submission with measurement counts
    that sum to the requested shots, every correlation stored in the
    produced record lies in [-1, 1] and every stored marker probability
    lies in [0, 1]. *)
Theorem produced_estimates_in_range :
  forall (use_simulator : bool) (results : Results.t),
    answers_every_submission device_run ->
    run_experiment AwsDevice Devices_Amazon_SV1 device_run now_isoformat use_simulator
    = Returns results ->
    every_estimate (in_range (-1) 1) (fun _ => True) results
    /\ marker_probabilities_valid results.
Proof.
  intros use_simulator results Hdev H.
  apply (run_experiment_invariant
           (fun r => every_estimate (in_range (-1) 1) (fun _ => True) r
                     /\ marker_probabilities_valid r))
    with (use_simulator := use_simulator); [| |exact H].
  - unfold every_estimate, marker_probabilities_valid. simpl.
    repeat split; constructor.
  - intros r d theta_deg r' d' Hr Hstep.
    apply (run_angle_keeps_ranges _ _ _ _ _ Hdev Hr Hstep).
Qed.

End Driver.

Lemma failed_pass_aborts_run_witness :
  run_experiment (fun _ : string => tt) "sv1"
    (fun (_ : unit) (_ : Circuit) (_ : Z) => Raises (DeviceError "timeout"))
    "2026-01-01T00:00:00" false
  = Raises (DeviceError "timeout").
Proof.
  apply (@failed_pass_aborts_run unit (fun _ : string => tt) "sv1"%string
           (fun (_ : unit) (_ : Circuit) (_ : Z) => Raises (DeviceError "timeout"))
           "2026-01-01T00:00:00"%string false
           [] [30; 60; 90; 120; 150; 180]%Z 0%Z
           (initial_results "2026-01-01T00:00:00", tt)).
  - reflexivity.
  - reflexivity.
  - reflexivity.
Defined.

Lemma produced_metadata_is_constant_witness :
  exists results : Results.t,
    run_experiment (fun _ : string => tt) "sv1" all_zero_run "2026-01-01T00:00:00" true
    = Returns results
    /\ Results.metadata results
       = Metadata.Build DEVICE_ARN "2026-01-01T00:00:00" THETA_VALUES N_SHOTS.
Proof.
  destruct (@run_experiment_returns unit (fun _ : string => tt) "sv1"%string
              all_zero_run "2026-01-01T00:00:00"%string true all_zero_run_answers)
    as [results H].
  exists results. split; [exact H|].
  apply (@produced_metadata_is_constant unit (fun _ : string => tt) "sv1"%string
           all_zero_run "2026-01-01T00:00:00"%string true results H).
Defined.

Lemma produced_raw_counts_match_data_witness :
  exists results : Results.t,
    run_experiment (fun _ : string => tt) "sv1" all_zero_run "2026-01-01T00:00:00" true
    = Returns results
    /\ raw_matches_data results.
Proof.
  destruct (@run_experiment_returns unit (fun _ : string => tt) "sv1"%string
              all_zero_run "2026-01-01T00:00:00"%string true all_zero_run_answers)
    as [results H].
  exists results. split; [exact H|].
  apply (@produced_raw_counts_match_data unit (fun _ : string => tt) "sv1"%string
           all_zero_run "2026-01-01T00:00:00"%string true results H).
Defined.

Lemma produced_record_has_finite_significance_witness :
  exists results : Results.t,
    run_experiment (fun _ : string => tt) "sv1" all_zero_run "2026-01-01T00:00:00" true
    = Returns results
    /\ every_estimate is_finite (eq (Finite (1 / sqrt 2000))) results
    /\ (exists c sigma,
           test_erasure_vs_no_erasure (reload results) = Returns c
           /\ Comparison.significance_sigma c = Finite sigma /\ (0 <= sigma)%R).
Proof.
  destruct (@run_experiment_returns unit (fun _ : string => tt) "sv1"%string
              all_zero_run "2026-01-01T00:00:00"%string true all_zero_run_answers)
    as [results H].
  exists results. split; [exact H|].
  pose proof (@produced_record_has_finite_significance unit (fun _ : string => tt)
                "sv1"%string all_zero_run "2026-01-01T00:00:00"%string true results H)
    as (Hest & _ & Htest).
  split; [exact Hest|exact Htest].
Defined.

Lemma produced_estimates_in_range_witness :
  exists results : Results.t,
    run_experiment (fun _ : string => tt) "sv1" all_zero_run "2026-01-01T00:00:00" true
    = Returns results
    /\ every_estimate (in_range (-1) 1) (fun _ => True) results
    /\ marker_probabilities_valid results.
Proof.
  destruct (@run_experiment_returns unit (fun _ : string => tt) "sv1"%string
              all_zero_run "2026-01-01T00:00:00"%string true all_zero_run_answers)
    as [results H].
  exists results. split; [exact H|].
  apply (@produced_estimates_in_range unit (fun _ : string => tt) "sv1"%string
           all_zero_run "2026-01-01T00:00:00"%string true results
           all_zero_run_answers H).
Defined.

End DriverExtras.

(** ** Further properties of the significance analysis *)

Module AnalysisExtras.
Import Py Analysis Spec AnalysisProofs DriverProofs.
Open Scope py_scope.

Lemma fadd_comm (x y : float64) : fadd x y = fadd y x.
Proof. destruct x, y; simpl; try reflexivity. f_equal. lra. Qed.

Lemma fabs_fsub_sym (x y : float64) : fabs (fsub x y) = fabs (fsub y x).
Proof.
  destruct x as [a| | |], y as [b| | |]; simpl; try reflexivity.
  f_equal. replace (b + - a)%R with (- (a + - b))%R by lra.
  symmetry. apply Rabs_Ropp.
Qed.

Lemma combined_error_sym (e1 e2 : float64) :
  combined_error e1 e2 = combined_error e2 e1.
Proof. unfold combined_error. rewrite fadd_comm. reflexivity. Qed.

Lemma nth_error_short {A : Type} (l : list A) (i : nat) :
  (List.length l <= i)%nat -> list_index l i = Raises IndexError.
Proof.
  intros H. unfold list_index. rewrite (proj2 (nth_error_None l i) H). reflexivity.
Qed.

Lemma list_index_cases {A : Type} (l : list A) (i : nat) :
  (exists a, list_index l i = Returns a) \/ list_index l i = Raises IndexError.
Proof. unfold list_index. destruct (nth_error l i); eauto. Qed.

(** X16: the gap test is symmetric in its two inputs.  Exchanging the
    standard and the with-reversal condition leaves gap, significance,
    t statistic and p-value of [analyze_restoration_failure] unchanged, and
    exchanging the no-reversal and the with-reversal condition leaves the
    difference, significance and classification of
    [test_erasure_vs_no_erasure] unchanged; failures are exchanged for the
    same failure. *)
Theorem gap_test_is_symmetric :
  forall (norm_cdf : float64 -> float64) (data : Document.t),
    analyze_restoration_failure norm_cdf (swap_standard_reversal data)
    = match analyze_restoration_failure norm_cdf data with
      | Returns r =>
          Returns (Restoration.Build 90
                     (Restoration.C_with_reversal r) (Restoration.C_standard r)
                     (Restoration.gap r) (Restoration.significance_sigma r)
                     (Restoration.t_statistic r) (Restoration.p_value r))
      | Raises e => Raises e
      end
    /\ test_erasure_vs_no_erasure (swap_no_reversal_reversal data)
       = match test_erasure_vs_no_erasure data with
         | Returns c =>
             Returns (Comparison.Build
                        (Comparison.C_with_reversal c) (Comparison.C_no_reversal c)
                        (Comparison.difference c) (Comparison.significance_sigma c)
                        (Comparison.statistically_same c))
         | Raises e => Raises e
         end.
Proof.
  intros norm_cdf [d]. split.
  - unfold analyze_restoration_failure, swap_standard_reversal, extract_arrays.
    cbn [Document.data DataDict.theta DataDict.C_standard DataDict.C_with_reversal
         DataDict.C_standard_err DataDict.C_with_reversal_err].
    destruct (find_idx_90 (DataDict.theta d)) as [i|e]; cbn [bind]; [|reflexivity].
    unfold list_index.
    destruct (nth_error (DataDict.C_standard d) i) as [C_std|];
      destruct (nth_error (DataDict.C_with_reversal d) i) as [C_rev|];
      destruct (nth_error (DataDict.C_standard_err d) i) as [e_std|];
      destruct (nth_error (DataDict.C_with_reversal_err d) i) as [e_rev|];
      cbn; try reflexivity.
    rewrite (fabs_fsub_sym C_rev C_std).
    rewrite (fadd_comm (fsquare e_rev) (fsquare e_std)). reflexivity.
  - unfold test_erasure_vs_no_erasure, swap_no_reversal_reversal, extract_arrays.
    cbn [Document.data DataDict.theta DataDict.C_no_reversal DataDict.C_with_reversal
         DataDict.C_no_reversal_err DataDict.C_with_reversal_err].
    destruct (find_idx_90 (DataDict.theta d)) as [i|e]; cbn [bind]; [|reflexivity].
    unfold list_index.
    destruct (nth_error (DataDict.C_no_reversal d) i) as [C_no|];
      destruct (nth_error (DataDict.C_with_reversal d) i) as [C_with|];
      destruct (nth_error (DataDict.C_no_reversal_err d) i) as [e_no|];
      destruct (nth_error (DataDict.C_with_reversal_err d) i) as [e_with|];
      cbn; try reflexivity.
    rewrite (fabs_fsub_sym C_no C_with).
    rewrite (fadd_comm (fsquare e_with) (fsquare e_no)). reflexivity.
Qed.

(** X17: on a loaded record whose six value sequences are as long as its
    angle sequence and whose angle sequence contains 90, both analysis
    operations return a result. *)
Theorem rectangular_record_is_analyzed :
  forall (norm_cdf : float64 -> float64) (data : Document.t),
    rectangular data ->
    In (of_int 90) (DataDict.theta (Document.data data)) ->
    (exists r, analyze_restoration_failure norm_cdf data = Returns r)
    /\ (exists c, test_erasure_vs_no_erasure data = Returns c).
Proof.
  intros norm_cdf data (H1 & H2 & H3 & H4 & H5 & H6) Hin.
  destruct (find_idx_90_present _ Hin) as [i Hi].
  destruct (find_idx_90_found _ _ Hi) as [Hnth _].
  assert (Hlt : (i < List.length (DataDict.theta (Document.data data)))%nat)
    by (apply nth_error_Some; congruence).
  destruct (nth_error_of_length _ _ i H1 Hlt) as [C_std E1].
  destruct (nth_error_of_length _ _ i H2 Hlt) as [e_std E2].
  destruct (nth_error_of_length _ _ i H3 Hlt) as [C_no E3].
  destruct (nth_error_of_length _ _ i H4 Hlt) as [e_no E4].
  destruct (nth_error_of_length _ _ i H5 Hlt) as [C_rev E5].
  destruct (nth_error_of_length _ _ i H6 Hlt) as [e_rev E6].
  split; eexists.
  - apply (analyze_restoration_failure_reads norm_cdf data i C_std C_rev e_std e_rev);
      assumption.
  - apply (test_erasure_vs_no_erasure_reads data i C_no C_rev e_no e_rev);
      assumption.
Qed.

Lemma rectangular_record_is_analyzed_witness :
  (exists r, analyze_restoration_failure (fun _ => Finite (1 / 2)) two_sigma_data
             = Returns r)
  /\ (exists c, test_erasure_vs_no_erasure two_sigma_data = Returns c).
Proof.
  apply (rectangular_record_is_analyzed (fun _ => Finite (1 / 2)) two_sigma_data).
  - unfold rectangular. simpl. repeat split.
  - simpl. left. reflexivity.
Defined.

(** X18: when the angle 90 is found at an index that one of the value
    sequences an operation reads does not reach, that operation raises
    IndexError. *)
Theorem short_sequence_raises :
  forall (norm_cdf : float64 -> float64) (data : Document.t) (i : nat),
    find_idx_90 (DataDict.theta (Document.data data)) = Returns i ->
    ((List.length (DataDict.C_standard (Document.data data)) <= i
      \/ List.length (DataDict.C_with_reversal (Document.data data)) <= i
      \/ List.length (DataDict.C_standard_err (Document.data data)) <= i
      \/ List.length (DataDict.C_with_reversal_err (Document.data data)) <= i)%nat ->
     analyze_restoration_failure norm_cdf data = Raises IndexError)
    /\ ((List.length (DataDict.C_no_reversal (Document.data data)) <= i
         \/ List.length (DataDict.C_with_reversal (Document.data data)) <= i
         \/ List.length (DataDict.C_no_reversal_err (Document.data data)) <= i
         \/ List.length (DataDict.C_with_reversal_err (Document.data data)) <= i)%nat ->
        test_erasure_vs_no_erasure data = Raises IndexError).
Proof.
  intros norm_cdf [d] i Hi. cbn [Document.data] in *. split; intros Hshort.
  - unfold analyze_restoration_failure, extract_arrays.
    cbn [Document.data DataDict.theta DataDict.C_standard DataDict.C_with_reversal
         DataDict.C_standard_err DataDict.C_with_reversal_err].
    rewrite Hi. cbn [bind].
    destruct Hshort as [H|[H|[H|H]]]; apply nth_error_short in H;
      repeat (match goal with
              | |- context [list_index ?l i] =>
                  first [ rewrite H
                        | destruct (list_index_cases l i) as [[? ->]| ->] ]
              end; cbn [bind]);
      reflexivity.
  - unfold test_erasure_vs_no_erasure, extract_arrays.
    cbn [Document.data DataDict.theta DataDict.C_no_reversal DataDict.C_with_reversal
         DataDict.C_no_reversal_err DataDict.C_with_reversal_err].
    rewrite Hi. cbn [bind].
    destruct Hshort as [H|[H|[H|H]]]; apply nth_error_short in H;
      repeat (match goal with
              | |- context [list_index ?l i] =>
                  first [ rewrite H
                        | destruct (list_index_cases l i) as [[? ->]| ->] ]
              end; cbn [bind]);
      reflexivity.
Qed.

Lemma short_sequence_raises_witness :
  analyze_restoration_failure (fun _ => Finite (1 / 2))
    (Document.Build (DataDict.Build [of_int 0; of_int 90]
       [Finite 1] [Finite 0; Finite 0] [Finite 0; Finite 0] [Finite 0; Finite 0]
       [Finite 0; Finite 0] [Finite 0; Finite 0]))
  = Raises IndexError.
Proof.
  apply (proj1 (short_sequence_raises (fun _ => Finite (1 / 2))
           (Document.Build (DataDict.Build [of_int 0; of_int 90]
              [Finite 1] [Finite 0; Finite 0] [Finite 0; Finite 0] [Finite 0; Finite 0]
              [Finite 0; Finite 0] [Finite 0; Finite 0])) 1%nat
           (eq_trans (find_idx_90_of_int [0; 90]%Z) eq_refl))).
  left. simpl. lia.
Defined.

(** X20: whatever either analysis operation returns, its gap and its
    significance are never negative and never minus infinity, and
    [analyze_restoration_failure] reports the angle 90 and a t statistic
    equal to the significance. *)
Theorem gap_and_significance_not_negative :
  forall (norm_cdf : float64 -> float64) (data : Document.t),
    (forall r, analyze_restoration_failure norm_cdf data = Returns r ->
        Restoration.theta r = 90%Z
        /\ not_negative (Restoration.gap r)
        /\ not_negative (Restoration.significance_sigma r)
        /\ Restoration.t_statistic r = Restoration.significance_sigma r)
    /\ (forall c, test_erasure_vs_no_erasure data = Returns c ->
        not_negative (Comparison.difference c)
        /\ not_negative (Comparison.significance_sigma c)).
Proof.
  intros norm_cdf data. split.
  - intros r H. unfold analyze_restoration_failure in H.
    apply bind_returns in H as (i & _ & H).
    apply bind_returns in H as (C_std & _ & H).
    apply bind_returns in H as (C_rev & _ & H).
    apply bind_returns in H as (e_std & _ & H).
    apply bind_returns in H as (e_rev & _ & H).
    injection H as <-. cbn. repeat split.
    + apply fabs_not_negative.
    + apply fdiv_not_negative; [apply fabs_not_negative|apply fsqrt_not_negative].
  - intros c H.
    destruct (test_erasure_vs_no_erasure_shape data c H)
      as (C_no & C_with & e_no & e_with & ->).
    cbn. split.
    + apply fabs_not_negative.
    + apply fdiv_not_negative; [apply fabs_not_negative|apply fsqrt_not_negative].
Qed.

Lemma gap_and_significance_not_negative_witness :
  exists c,
    test_erasure_vs_no_erasure two_sigma_data = Returns c
    /\ not_negative (Comparison.difference c)
    /\ not_negative (Comparison.significance_sigma c).
Proof.
  destruct two_sigma_data_significance as (c & Hc & _).
  exists c. split; [exact Hc|].
  apply (proj2 (gap_and_significance_not_negative (fun _ => Finite (1 / 2))
                  two_sigma_data) c Hc).
Defined.

End AnalysisExtras.
